(** * ResQLink: the request store (database.py) and its HTTP facade (app.py)

    A shallow embedding of the two Python modules of the repository and
    the properties of the request store that the specification states.

    - [Py]    : the Python values a JSON body can hold, truthiness, [int()],
                exceptions and the result of a call that may raise.
    - [Store] : [database.py], class [Database] over sqlite3.
    - [App]   : [app.py], the Flask handlers over the SQLAlchemy model
                [HelpRequest].

    Conventions of the model.
    - A call that may raise returns a [result]; a method of [Database]
      is a function from the database to a result and the database after
      the call (each method opens a connection, runs one statement,
      commits and closes).
    - JSON numbers are integers: floating point values are outside the
      model.  Strings are byte strings.
    - A timestamp cell holds an ISO-8601 text; it is represented by the
      instant it denotes, in microseconds since the Unix epoch.  Texts of
      one writer order as their instants do, so [ORDER BY timestamp] is
      the order of the instants.
    - Request ids are SQLite INTEGERs, taken as [Z]. *)

From stdpp Require Import gmap strings list sorting pretty.
From Stdlib Require Import ZArith Ascii.

#[local] Set Warnings "-register-all".
#[local] Open Scope Z_scope.

(** ** Python values *)

Module Py.

Inductive pyval :=
  | PNone
  | PBool (b : bool)
  | PInt (n : Z)
  | PStr (s : string)
  | PList (l : list pyval)
  | PDict (d : gmap string pyval).

(** [bool(v)]: None, False, 0, the empty string, list and dict are false. *)
Definition truthy (v : pyval) : bool :=
  match v with
  | PNone => false
  | PBool b => b
  | PInt n => negb (n =? 0)
  | PStr s => negb (bool_decide (s = ""))
  | PList l => match l with [] => false | _ :: _ => true end
  | PDict d => negb (bool_decide (d = ∅))
  end.

(** [d.get(k)]: the value, or None when the key is absent. *)
Definition dict_get (d : gmap string pyval) (k : string) : pyval :=
  default PNone (d !! k).

(** [d.get(k, dflt)]. *)
Definition dict_get_default (d : gmap string pyval) (k : string) (dflt : pyval) : pyval :=
  default dflt (d !! k).

(** The values the specification calls empty. *)
Definition py_empty (v : pyval) : Prop :=
  v = PNone ∨ v = PStr "" ∨ v = PList [] ∨ v = PDict ∅.

Inductive exn :=
  | ValueError (msg : string)
  | TypeError
  | KeyError (key : string)
  | OverflowError
  | IntegrityError (msg : string)
  | InterfaceError
  | HTTPException (code : Z).

Inductive result (A : Type) :=
  | Ok (a : A)
  | Raise (e : exn).
Arguments Ok {A} a.
Arguments Raise {A} e.

#[global] Instance result_ret : MRet result := λ A a, Ok a.
#[global] Instance result_bind : MBind result := λ A B f m,
  match m with
  | Ok a => f a
  | Raise e => Raise e
  end.

(** [d[k]]: KeyError when the key is absent. *)
Definition dict_item (d : gmap string pyval) (k : string) : result pyval :=
  match d !! k with
  | Some v => Ok v
  | None => Raise (KeyError k)
  end.

(** *** [int(v)] *)

Definition is_digit (c : Ascii.ascii) : bool :=
  let n := Z.of_N (Ascii.N_of_ascii c) in (48 <=? n) && (n <=? 57).

Definition digit_value (c : Ascii.ascii) : Z :=
  Z.of_N (Ascii.N_of_ascii c) - 48.

(** The characters [str.strip()] removes, within ASCII. *)
Definition is_py_space (c : Ascii.ascii) : bool :=
  let n := Z.of_N (Ascii.N_of_ascii c) in
  ((9 <=? n) && (n <=? 13)) || ((28 <=? n) && (n <=? 32)).

Fixpoint lstrip (s : string) : string :=
  match s with
  | String c s' => if is_py_space c then lstrip s' else s
  | EmptyString => s
  end.

Definition strip (s : string) : string :=
  String.rev (lstrip (String.rev (lstrip s))).

(** Decimal digits; with [underscores], single underscores may stand
    between digits, as Python's [int()] allows. *)
Fixpoint digits (underscores : bool) (s : string) (acc : Z) (after_digit : bool) : option Z :=
  match s with
  | EmptyString => if after_digit then Some acc else None
  | String c s' =>
      if is_digit c then digits underscores s' (10 * acc + digit_value c) true
      else if bool_decide (c = "_"%char) && underscores && after_digit
           then digits underscores s' acc false
           else None
  end.

Definition signed_digits (underscores : bool) (s : string) : option Z :=
  match s with
  | String "-"%char s' => Z.opp <$> digits underscores s' 0 false
  | String "+"%char s' => digits underscores s' 0 false
  | _ => digits underscores s 0 false
  end.

Definition int_of_str (s : string) : option Z := signed_digits true (strip s).

Definition py_int (v : pyval) : result Z :=
  match v with
  | PInt n => Ok n
  | PBool b => Ok (if b then 1 else 0)
  | PStr s =>
      match int_of_str s with
      | Some n => Ok n
      | None => Raise (ValueError "invalid literal for int() with base 10")
      end
  | PNone | PList _ | PDict _ => Raise TypeError
  end.

End Py.
Export Py.

(** ** SQLite values *)

Module Sql.

Inductive sqlval :=
  | SNull
  | SInteger (n : Z)
  | SText (s : string).

Definition in_int64 (n : Z) : bool :=
  (- 2 ^ 63 <=? n) && (n <? 2 ^ 63).

(** How the sqlite3 module binds a Python value to a statement parameter. *)
Definition sql_bind (v : pyval) : result sqlval :=
  match v with
  | PNone => Ok SNull
  | PBool b => Ok (SInteger (if b then 1 else 0))
  | PInt n => if in_int64 n then Ok (SInteger n) else Raise OverflowError
  | PStr s => Ok (SText s)
  | PList _ | PDict _ => Raise InterfaceError
  end.

(** A column declared [TEXT NOT NULL]: integers are stored as their
    decimal text, NULL violates the constraint. *)
Definition text_not_null (table column : string) (v : sqlval) : result string :=
  match v with
  | SNull => Raise (IntegrityError ("NOT NULL constraint failed: " +:+ table +:+ "." +:+ column))
  | SInteger n => Ok (pretty n)
  | SText s => Ok s
  end.

(** A column declared [TEXT] that may be NULL. *)
Definition text_nullable (v : sqlval) : option string :=
  match v with
  | SNull => None
  | SInteger n => Some (pretty n)
  | SText s => Some s
  end.

(** A column declared [INTEGER]: a text that reads as an integer is stored
    as that integer, any other text stays text. *)
Definition integer_affinity (v : sqlval) : sqlval :=
  match v with
  | SText s =>
      match signed_digits false (strip s) with
      | Some n => if in_int64 n then SInteger n else v
      | None => v
      end
  | _ => v
  end.

End Sql.
Export Sql.

(** ** database.py: class Database *)

Module Store.

(** An instant, in microseconds since the Unix epoch. *)
Abbreviation time := Z.

(** A row of [help_requests], column by column as [init_db] declares
    them: a [NOT NULL] text column is a string, a text column that may
    be NULL an optional string; [people_affected] is the cell as SQLite
    holds it. *)
Record help_request := {
  id : Z;
  name : string;
  contact : string;
  location : string;
  district : string;
  state : string;
  pincode : option string;
  latitude : option string;
  longitude : option string;
  category : string;
  description : string;
  people_affected : sqlval;
  status : option string;
  timestamp : option time
}.

Record region_alert := {
  ra_id : Z;
  ra_district : string;
  ra_state : string;
  ra_alert_type : string;
  ra_severity : string;
  ra_description : option string;
  ra_timestamp : option time;
  ra_status : option string
}.

Record emergency_contact := {
  ec_id : Z;
  ec_name : string;
  ec_phone : string;
  ec_district : string;
  ec_state : string;
  ec_category : string;
  ec_is_active : option bool
}.

(** A table with an [AUTOINCREMENT] key: its rows in rowid order and the
    largest key ever handed out (the table's entry in sqlite_sequence). *)
Record table (A : Type) := {
  rows : list A;
  seq : Z
}.
Arguments rows {A} t.
Arguments seq {A} t.

Record database := {
  help_requests : table help_request;
  region_alerts : table region_alert;
  emergency_contacts : table emergency_contact
}.

(** The database [init_db] creates. *)
Definition init_db : database :=
  {| help_requests := {| rows := []; seq := 0 |};
     region_alerts := {| rows := []; seq := 0 |};
     emergency_contacts := {| rows := []; seq := 0 |} |}.

Definition set_help_requests (t : table help_request) (db : database) : database :=
  {| help_requests := t;
     region_alerts := region_alerts db;
     emergency_contacts := emergency_contacts db |}.

Definition set_rows {A} (l : list A) (t : table A) : table A :=
  {| rows := l; seq := seq t |}.

(** The dictionary [get_all_requests] and [get_request_by_id] build from a
    row: nine fixed keys. *)
Record request_dict := {
  d_id : Z;
  d_name : string;
  d_contact : string;
  d_location : string;
  d_category : string;
  d_description : string;
  d_people_affected : sqlval;
  d_status : option string;
  d_timestamp : option time
}.

Definition to_dict (row : help_request) : request_dict :=
  {| d_id := id row;
     d_name := name row;
     d_contact := contact row;
     d_location := location row;
     d_category := category row;
     d_description := description row;
     d_people_affected := people_affected row;
     d_status := status row;
     d_timestamp := timestamp row |}.

(** *** add_request *)

Definition required_fields : list string :=
  ["name"; "contact"; "location"; "category"; "description"].

(** The validation loop: the first required field whose value is falsy
    raises. *)
Definition validate (request_data : gmap string pyval) : result unit :=
  match List.find (λ field, negb (truthy (dict_get request_data field))) required_fields with
  | Some field => Raise (ValueError ("Missing required field: " +:+ field))
  | None => Ok ()
  end.

Definition max_id (l : list help_request) : Z :=
  foldr (λ r m, Z.max (id r) m) 0 l.

(** [INSERT INTO help_requests (...) VALUES (...)]: [cols] gives the
    bound value of every column the statement names, [ts] the instant of
    the timestamp text.  A column the statement does not name takes its
    declared default, NULL when it has none; the [NOT NULL] constraints
    are checked in column order; the key is one more than the largest
    key the table has held. *)
Definition insert_help_request (cols : gmap string sqlval) (ts : option time)
    (t : table help_request) : result (Z * table help_request) :=
  let cell (column : string) (dflt : sqlval) := default dflt (cols !! column) in
  v_name ← text_not_null "help_requests" "name" (cell "name" SNull);
  v_contact ← text_not_null "help_requests" "contact" (cell "contact" SNull);
  v_location ← text_not_null "help_requests" "location" (cell "location" SNull);
  v_district ← text_not_null "help_requests" "district" (cell "district" SNull);
  v_state ← text_not_null "help_requests" "state" (cell "state" SNull);
  v_category ← text_not_null "help_requests" "category" (cell "category" SNull);
  v_description ← text_not_null "help_requests" "description" (cell "description" SNull);
  let new_id := Z.max (seq t) (max_id (rows t)) + 1 in
  let row :=
    {| id := new_id;
       name := v_name;
       contact := v_contact;
       location := v_location;
       district := v_district;
       state := v_state;
       pincode := text_nullable (cell "pincode" SNull);
       latitude := text_nullable (cell "latitude" SNull);
       longitude := text_nullable (cell "longitude" SNull);
       category := v_category;
       description := v_description;
       people_affected := integer_affinity (cell "people_affected" (SInteger 1));
       status := text_nullable (cell "status" (SText "pending"));
       timestamp := ts |} in
  Ok (new_id, {| rows := rows t ++ [row]; seq := new_id |}).

(** [now] is the reading of [datetime.now()]. *)
Definition add_request (now : time) (request_data : gmap string pyval)
    (db : database) : result Z * database :=
  match validate request_data with
  | Raise e => (Raise e, db)
  | Ok _ =>
      let executed :=
        v_name ← dict_item request_data "name";
        v_contact ← dict_item request_data "contact";
        v_location ← dict_item request_data "location";
        v_category ← dict_item request_data "category";
        v_description ← dict_item request_data "description";
        let v_people := dict_get_default request_data "people_affected" (PInt 1) in
        let v_status := dict_get_default request_data "status" (PStr "pending") in
        p_name ← sql_bind v_name;
        p_contact ← sql_bind v_contact;
        p_location ← sql_bind v_location;
        p_category ← sql_bind v_category;
        p_description ← sql_bind v_description;
        p_people ← sql_bind v_people;
        p_status ← sql_bind v_status;
        insert_help_request
          (<["name" := p_name]> (<["contact" := p_contact]> (<["location" := p_location]>
           (<["category" := p_category]> (<["description" := p_description]>
           (<["people_affected" := p_people]> (<["status" := p_status]> ∅)))))))
          (Some now) (help_requests db) in
      match executed with
      | Ok (request_id, t) => (Ok request_id, set_help_requests t db)
      | Raise e => (Raise e, db)
      end
  end.

(** *** get_all_requests *)

(** A filter argument is used when it is truthy: neither None nor the
    empty string. *)
Definition supplied (filter_arg : option string) : bool :=
  match filter_arg with
  | Some s => negb (bool_decide (s = ""))
  | None => false
  end.

(** The [WHERE] clause the query builder assembles. *)
Definition where_clause (category_arg status_arg : option string) (row : help_request) : bool :=
  (if supplied category_arg then bool_decide (Some (category row) = category_arg) else true)
  && (if supplied status_arg then bool_decide (status row = status_arg) else true).

(** The order of timestamp cells: NULL sorts before every instant. *)
Definition ts_le (a b : option time) : Prop :=
  match a, b with
  | None, _ => True
  | Some _, None => False
  | Some x, Some y => x ≤ y
  end.

#[global] Instance ts_le_dec : RelDecision ts_le.
Proof. intros [x|] [y|]; simpl; apply _. Defined.

(** [ORDER BY timestamp DESC]. *)
Definition newer_first (a b : help_request) : Prop :=
  ts_le (timestamp b) (timestamp a).

#[global] Instance newer_first_dec : RelDecision newer_first.
Proof. intros a b. unfold newer_first. apply _. Defined.

Definition get_all_requests (category_arg status_arg : option string)
    (db : database) : list request_dict :=
  let selected := List.filter (where_clause category_arg status_arg) (rows (help_requests db)) in
  to_dict <$> merge_sort newer_first selected.

(** *** get_request_by_id *)

(** [request_id] is an id SQLite can hold, an integer of 64 bits: the
    binding of a larger Python int raises OverflowError before the query
    runs, and that call is not described here. *)
Definition get_request_by_id (request_id : Z) (db : database) : option request_dict :=
  to_dict <$> List.find (λ row, bool_decide (id row = request_id)) (rows (help_requests db)).

(** *** update_request_status *)

Definition set_status (new_status : option string) (row : help_request) : help_request :=
  {| id := id row;
     name := name row;
     contact := contact row;
     location := location row;
     district := district row;
     state := state row;
     pincode := pincode row;
     latitude := latitude row;
     longitude := longitude row;
     category := category row;
     description := description row;
     people_affected := people_affected row;
     status := new_status;
     timestamp := timestamp row |}.

(** [UPDATE help_requests SET status = ? WHERE id = ?]; the result is
    [cursor.rowcount > 0], the number of rows the [WHERE] clause
    matched. *)
Definition update_request_status (request_id : Z) (new_status : string)
    (db : database) : bool * database :=
  let old := rows (help_requests db) in
  let rowcount := length (List.filter (λ row, bool_decide (id row = request_id)) old) in
  let updated :=
    (λ row, if bool_decide (id row = request_id) then set_status (Some new_status) row else row)
      <$> old in
  (bool_decide (0 < rowcount)%nat, set_help_requests (set_rows updated (help_requests db)) db).

(** *** cleanup_old_requests *)

(** [datetime(timestamp)]: SQLite prints the time it reads without the
    fraction of the seconds. *)
Definition sql_datetime (ts : time) : Z := ts `div` 1000000.

(** [datetime('now', '-<days> days')], in seconds; [now] is the reading of
    SQLite's clock (UTC).  For a negative [days] the modifier reads
    [--n days], which SQLite rejects: the result is NULL. *)
Definition cutoff (now : time) (days : Z) : option Z :=
  if days <? 0 then None else Some (now `div` 1000000 - 86400 * days).

(** The [WHERE] clause of the [DELETE]; a comparison with NULL is not
    true. *)
Definition predates (now : time) (days : Z) (row : help_request) : bool :=
  match timestamp row, cutoff now days with
  | Some ts, Some c => sql_datetime ts <? c
  | _, _ => false
  end.

Definition cleanup_old_requests (now : time) (days : Z) (db : database) : database :=
  let kept := List.filter (λ row, negb (predates now days row)) (rows (help_requests db)) in
  set_help_requests (set_rows kept (help_requests db)) db.

(** *** get_affected_regions *)

(** A row of the grouped query, as [dict(row)] returns it. *)
Record region_dict := {
  r_district : string;
  r_state : string;
  request_count : Z;
  categories : string
}.

Definition is_pending (row : help_request) : bool :=
  bool_decide (status row = Some "pending").

Definition region_of (row : help_request) : string * string :=
  (district row, state row).

Definition in_region (region : string * string) (row : help_request) : bool :=
  bool_decide (region_of row = region).

(** [GROUP_CONCAT(DISTINCT category)]: the distinct values joined by
    commas. *)
Definition group_concat_distinct (values : list string) : string :=
  String.concat "," (remove_dups values).

(** One result row per group of [GROUP BY district, state] over the rows
    that pass [WHERE status = 'pending']. *)
Definition get_affected_regions (db : database) : list region_dict :=
  let pending := List.filter is_pending (rows (help_requests db)) in
  (λ region,
     let group := List.filter (in_region region) pending in
     {| r_district := region.1;
        r_state := region.2;
        request_count := Z.of_nat (length group);
        categories := group_concat_distinct (category <$> group) |})
    <$> remove_dups (region_of <$> pending).

(** *** add_emergency_contact *)

Definition set_emergency_contacts (t : table emergency_contact) (db : database) : database :=
  {| help_requests := help_requests db;
     region_alerts := region_alerts db;
     emergency_contacts := t |}.

Definition set_region_alerts (t : table region_alert) (db : database) : database :=
  {| help_requests := help_requests db;
     region_alerts := t;
     emergency_contacts := emergency_contacts db |}.

Definition max_contact_id (l : list emergency_contact) : Z :=
  foldr (λ c m, Z.max (ec_id c) m) 0 l.

(** [INSERT INTO emergency_contacts (name, phone, district, state,
    category) VALUES (?, ?, ?, ?, ?)]: the five columns are [NOT NULL]
    text, [is_active] takes its default 1. *)
Definition insert_emergency_contact (p_name p_phone p_district p_state p_category : sqlval)
    (t : table emergency_contact) : result (Z * table emergency_contact) :=
  v_name ← text_not_null "emergency_contacts" "name" p_name;
  v_phone ← text_not_null "emergency_contacts" "phone" p_phone;
  v_district ← text_not_null "emergency_contacts" "district" p_district;
  v_state ← text_not_null "emergency_contacts" "state" p_state;
  v_category ← text_not_null "emergency_contacts" "category" p_category;
  let new_id := Z.max (seq t) (max_contact_id (rows t)) + 1 in
  Ok (new_id,
      {| rows := rows t ++ [{| ec_id := new_id;
                               ec_name := v_name;
                               ec_phone := v_phone;
                               ec_district := v_district;
                               ec_state := v_state;
                               ec_category := v_category;
                               ec_is_active := Some true |}];
         seq := new_id |}).

Definition add_emergency_contact (contact_data : gmap string pyval)
    (db : database) : result Z * database :=
  let executed :=
    v_name ← dict_item contact_data "name";
    v_phone ← dict_item contact_data "phone";
    v_district ← dict_item contact_data "district";
    v_state ← dict_item contact_data "state";
    v_category ← dict_item contact_data "category";
    p_name ← sql_bind v_name;
    p_phone ← sql_bind v_phone;
    p_district ← sql_bind v_district;
    p_state ← sql_bind v_state;
    p_category ← sql_bind v_category;
    insert_emergency_contact p_name p_phone p_district p_state p_category
      (emergency_contacts db) in
  match executed with
  | Ok (contact_id, t) => (Ok contact_id, set_emergency_contacts t db)
  | Raise e => (Raise e, db)
  end.

(** *** get_contacts_by_region *)

(** [SELECT * FROM emergency_contacts WHERE district = ? AND state = ?
    AND is_active = 1]; [dict(row)] has every column of the row. *)
Definition get_contacts_by_region (district_arg state_arg : string)
    (db : database) : list emergency_contact :=
  List.filter
    (λ c, bool_decide (ec_district c = district_arg)
          && bool_decide (ec_state c = state_arg)
          && bool_decide (ec_is_active c = Some true))
    (rows (emergency_contacts db)).

(** *** add_region_alert *)

Definition max_alert_id (l : list region_alert) : Z :=
  foldr (λ a m, Z.max (ra_id a) m) 0 l.

(** [CURRENT_TIMESTAMP]: SQLite's clock, to the second. *)
Definition current_timestamp (now : time) : time := now `div` 1000000 * 1000000.

(** [INSERT INTO region_alerts (district, state, alert_type, severity,
    description) VALUES (?, ?, ?, ?, ?)]: [description] may be NULL,
    [timestamp] and [status] take their defaults. *)
Definition insert_region_alert (now : time)
    (p_district p_state p_alert_type p_severity p_description : sqlval)
    (t : table region_alert) : result (Z * table region_alert) :=
  v_district ← text_not_null "region_alerts" "district" p_district;
  v_state ← text_not_null "region_alerts" "state" p_state;
  v_alert_type ← text_not_null "region_alerts" "alert_type" p_alert_type;
  v_severity ← text_not_null "region_alerts" "severity" p_severity;
  let new_id := Z.max (seq t) (max_alert_id (rows t)) + 1 in
  Ok (new_id,
      {| rows := rows t ++ [{| ra_id := new_id;
                               ra_district := v_district;
                               ra_state := v_state;
                               ra_alert_type := v_alert_type;
                               ra_severity := v_severity;
                               ra_description := text_nullable p_description;
                               ra_timestamp := Some (current_timestamp now);
                               ra_status := Some "active" |}];
         seq := new_id |}).

(** [now] is the reading of SQLite's clock. *)
Definition add_region_alert (now : time) (alert_data : gmap string pyval)
    (db : database) : result Z * database :=
  let executed :=
    v_district ← dict_item alert_data "district";
    v_state ← dict_item alert_data "state";
    v_alert_type ← dict_item alert_data "alert_type";
    v_severity ← dict_item alert_data "severity";
    v_description ← dict_item alert_data "description";
    p_district ← sql_bind v_district;
    p_state ← sql_bind v_state;
    p_alert_type ← sql_bind v_alert_type;
    p_severity ← sql_bind v_severity;
    p_description ← sql_bind v_description;
    insert_region_alert now p_district p_state p_alert_type p_severity p_description
      (region_alerts db) in
  match executed with
  | Ok (alert_id, t) => (Ok alert_id, set_region_alerts t db)
  | Raise e => (Raise e, db)
  end.

End Store.

(** ** app.py: the Flask handlers *)

Module App.

Abbreviation time := Z.

(** The model class [HelpRequest].  The columns [people_affected],
    [status] and [timestamp] may hold NULL, but every row the handlers
    write sets them; the model keeps rows of that shape. *)
Record HelpRequest := {
  id : Z;
  name : string;
  contact : string;
  location : string;
  category : string;
  description : string;
  people_affected : Z;
  status : string;
  timestamp : time
}.

(** The JSON bodies the handlers return. *)
Inductive body :=
  | Error (msg : string)
  | Submitted (request_id : Z)
  | Requests (requests : list HelpRequest)
  | Resolved (request_id : Z).

Record response := {
  code : Z;
  payload : body
}.

(** The table behind the model, in rowid order. *)
Abbreviation store := (list HelpRequest).

Definition required_fields : list string :=
  ["name"; "contact"; "location"; "category"; "description"].

Definition max_id (st : store) : Z :=
  foldr (λ r m, Z.max (id r) m) 0 st.

(** [db.session.add(new_request); db.session.commit()]: the attribute
    values are bound as statement parameters, the text columns are
    [NOT NULL], the key is one more than the largest key in the table. *)
Definition session_add_commit (v_name v_contact v_location v_category v_description : pyval)
    (v_people : Z) (v_status : string) (now : time) (st : store) : result (Z * store) :=
  c_name ← sql_bind v_name ≫= text_not_null "help_request" "name";
  c_contact ← sql_bind v_contact ≫= text_not_null "help_request" "contact";
  c_location ← sql_bind v_location ≫= text_not_null "help_request" "location";
  c_category ← sql_bind v_category ≫= text_not_null "help_request" "category";
  c_description ← sql_bind v_description ≫= text_not_null "help_request" "description";
  if in_int64 v_people then
    let new_id := max_id st + 1 in
    Ok (new_id,
        st ++ [{| id := new_id;
                  name := c_name;
                  contact := c_contact;
                  location := c_location;
                  category := c_category;
                  description := c_description;
                  people_affected := v_people;
                  status := v_status;
                  timestamp := now |}])
  else Raise OverflowError.

(** [POST /api/submit]; [data] is the JSON object of the body, [now] the
    reading of [datetime.utcnow()].  Any exception is caught, the session
    rolled back and 500 returned. *)
Definition submit_request (now : time) (data : gmap string pyval)
    (st : store) : response * store :=
  match List.find (λ field, negb (truthy (dict_get data field))) required_fields with
  | Some field =>
      ({| code := 400; payload := Error ("Missing required field: " +:+ field) |}, st)
  | None =>
      let attempt :=
        v_name ← dict_item data "name";
        v_contact ← dict_item data "contact";
        v_location ← dict_item data "location";
        v_category ← dict_item data "category";
        v_description ← dict_item data "description";
        v_people ← py_int (dict_get_default data "people_affected" (PInt 1));
        session_add_commit v_name v_contact v_location v_category v_description
          v_people "pending" now st in
      match attempt with
      | Ok (new_id, st') => ({| code := 201; payload := Submitted new_id |}, st')
      | Raise _ => ({| code := 500; payload := Error "Internal server error" |}, st)
      end
  end.

(** [request.args.get(...)] is None or a string; [if category:] holds
    for a non-empty string. *)
Definition supplied (arg : option string) : bool :=
  match arg with
  | Some s => negb (bool_decide (s = ""))
  | None => false
  end.

Definition filter_by (category_arg status_arg : option string) (r : HelpRequest) : bool :=
  (if supplied category_arg then bool_decide (Some (category r) = category_arg) else true)
  && (if supplied status_arg then bool_decide (Some (status r) = status_arg) else true).

(** [order_by(HelpRequest.timestamp.desc())]. *)
Definition newer_first (a b : HelpRequest) : Prop := timestamp b ≤ timestamp a.

#[global] Instance newer_first_dec : RelDecision newer_first.
Proof. intros a b. unfold newer_first. apply _. Defined.

(** [GET /api/get_requests]. *)
Definition get_requests (category_arg status_arg : option string) (st : store) : response :=
  {| code := 200;
     payload := Requests (merge_sort newer_first (List.filter (filter_by category_arg status_arg) st)) |}.

(** [HelpRequest.query.get_or_404(request_id)]: the row with that key,
    or [abort(404)], which raises the HTTPException NotFound. *)
Definition get_or_404 (request_id : Z) (st : store) : result HelpRequest :=
  match List.find (λ r, bool_decide (id r = request_id)) st with
  | Some r => Ok r
  | None => Raise (HTTPException 404)
  end.

Definition set_status (new_status : string) (r : HelpRequest) : HelpRequest :=
  {| id := id r;
     name := name r;
     contact := contact r;
     location := location r;
     category := category r;
     description := description r;
     people_affected := people_affected r;
     status := new_status;
     timestamp := timestamp r |}.

(** [POST /api/resolve_request/<int:request_id>].  The handler body runs
    inside [try: ... except Exception], and HTTPException is an
    Exception: the handler catches what [get_or_404] raises. *)
Definition resolve_request (request_id : Z) (st : store) : response * store :=
  let attempt :=
    help_request ← get_or_404 request_id st;
    Ok ((λ r, if bool_decide (id r = id help_request) then set_status "resolved" r else r) <$> st) in
  match attempt with
  | Ok st' => ({| code := 200; payload := Resolved request_id |}, st')
  | Raise _ => ({| code := 500; payload := Error "Internal server error" |}, st)
  end.

(** *** The helpline page *)

(** [render_template(name, request=...)]: the template and the request
    handed to it. *)
Inductive page :=
  | Template (template : string) (request : option HelpRequest).

(** [GET /helpline/<int:request_id>]: [if request_id:] holds for an id
    other than 0; here [get_or_404] is called outside any [try].  The
    route takes any number of digits, and the query binds the id: one
    outside SQLite's 64 bits raises OverflowError. *)
Definition helpline (request_id : Z) (st : store) : result page :=
  if negb (request_id =? 0) then
    if in_int64 request_id then
      help_request ← get_or_404 request_id st;
      Ok (Template "helpline.html" (Some help_request))
    else Raise OverflowError
  else Ok (Template "helpline.html" None).

(** The handler registered with [errorhandler(404)]. *)
Definition not_found_error : response :=
  {| code := 404; payload := Error "Resource not found" |}.

(** What the client of [helpline] gets: the page, or, for the 404 that
    [get_or_404] raises, the answer of [not_found_error]; any other
    exception is left to Flask. *)
Definition helpline_reply (request_id : Z) (st : store) : result (page + response) :=
  match helpline request_id st with
  | Ok p => Ok (inl p)
  | Raise (HTTPException 404) => Ok (inr not_found_error)
  | Raise e => Raise e
  end.

End App.

(** ** Sample data *)

Module Examples.

(** The submission of the specification's example. *)
Definition flood_request : gmap string pyval :=
  <["name" := PStr "A"]> (<["contact" := PStr "123"]> (<["location" := PStr "X"]>
  (<["category" := PStr "flood"]> (<["description" := PStr "d"]> ∅)))).

(** A stored request of district [d], category [c], with status [s],
    stamped [ts]. *)
Definition stored (i : Z) (d c : string) (s : option string) (ts : option Z) : Store.help_request :=
  {| Store.id := i;
     Store.name := "A";
     Store.contact := "123";
     Store.location := "X";
     Store.district := d;
     Store.state := "Kerala";
     Store.pincode := None;
     Store.latitude := None;
     Store.longitude := None;
     Store.category := c;
     Store.description := "d";
     Store.people_affected := SInteger 1;
     Store.status := s;
     Store.timestamp := ts |}.

Definition with_requests (l : list Store.help_request) : Store.database :=
  Store.set_help_requests {| Store.rows := l; Store.seq := Store.max_id l |} Store.init_db.

Definition posted (i : Z) (s : string) (ts : Z) : App.HelpRequest :=
  {| App.id := i;
     App.name := "A";
     App.contact := "123";
     App.location := "X";
     App.category := "flood";
     App.description := "d";
     App.people_affected := 1;
     App.status := s;
     App.timestamp := ts |}.

(** 2023-11-14 22:13:20 UTC, in microseconds. *)
Definition an_instant : Z := 1700000000000000.

End Examples.

(** ** Notions the statements use *)

(** What the [UPDATE] of [update_request_status] does to one row. *)
Definition mark (request_id : Z) (s : string) (row : Store.help_request) : Store.help_request :=
  if bool_decide (Store.id row = request_id) then Store.set_status (Some s) row else row.

(** What the resolve handler does to one row. *)
Definition app_mark (request_id : Z) (r : App.HelpRequest) : App.HelpRequest :=
  if bool_decide (App.id r = request_id) then App.set_status "resolved" r else r.

(** The pending requests of district [d] in state [s]. *)
Definition pending_in (db : Store.database) (d s : string) : list Store.help_request :=
  List.filter
    (λ row, bool_decide (Store.status row = Some "pending")
            && bool_decide (Store.district row = d) && bool_decide (Store.state row = s))
    (Store.rows (Store.help_requests db)).

(** A request to one of the handlers that use the table. *)
Inductive call :=
  | Submit (now : Z) (data : gmap string pyval)
  | Resolve (request_id : Z)
  | GetRequests (category_arg status_arg : option string)
  | Helpline (request_id : Z).

Definition serve (c : call) (st : App.store) : App.store :=
  match c with
  | Submit now data => (App.submit_request now data st).2
  | Resolve request_id => (App.resolve_request request_id st).2
  | GetRequests _ _ => st
  | Helpline _ => st
  end.

(** The table after a sequence of requests, served one after the other. *)
Definition serve_all (calls : list call) (st : App.store) : App.store :=
  foldl (λ st c, serve c st) st calls.

(** The ids 1, ..., n. *)
Definition first_ids (n : nat) : list Z := Z.of_nat <$> seq 1 n.

(** Values SQLite stores in a [NOT NULL] text column: a string, a
    boolean, an integer of 64 bits. *)
Definition storable (v : pyval) : Prop :=
  match v with
  | PStr _ | PBool _ => True
  | PInt n => in_int64 n = true
  | PNone | PList _ | PDict _ => False
  end.

(** Values with which an [INSERT] into such a column fails: None (the
    constraint), a list or a dict (no binding), an integer outside 64
    bits (overflow). *)
Definition unstorable (v : pyval) : Prop :=
  match v with
  | PNone | PList _ | PDict _ => True
  | PInt n => in_int64 n = false
  | PStr _ | PBool _ => False
  end.

Definition contact_keys : list string :=
  ["name"; "phone"; "district"; "state"; "category"].

(** The sum of the counts of a list of regions. *)
Definition total_requests (regions : list Store.region_dict) : Z :=
  foldr (λ e acc, Store.request_count e + acc) 0 regions.

(** The number of elements of [l] with key [k], and the sum of these
    numbers over a list of keys. *)
Definition group_size {A K : Type} `{EqDecision K} (key : A → K) (l : list A) (k : K) : Z :=
  Z.of_nat (length (List.filter (λ x, bool_decide (key x = k)) l)).

Definition sum_sizes {A K : Type} `{EqDecision K} (key : A → K) (l : list A) (ks : list K) : Z :=
  foldr (λ k acc, group_size key l k + acc) 0 ks.

(** What the table may do to a stored request over time: leave it, or
    mark it resolved. *)
Definition kept_or_resolved (r r' : App.HelpRequest) : Prop :=
  r' = r ∨ r' = App.set_status "resolved" r.

(** * Properties *)

(** ** Lists: find and filter *)

Section list_facts.
Context {A : Type}.
Implicit Types (f : A → bool) (l : list A).

Lemma find_some_elem f l x : List.find f l = Some x → x ∈ l ∧ f x = true.
Proof.
  intros H. apply find_some in H as [H1 H2].
  split; [by apply list_elem_of_In | done].
Qed.

Lemma find_none_elem f l x : List.find f l = None → x ∈ l → f x = false.
Proof.
  intros H Hx. apply (find_none f l H). by apply list_elem_of_In.
Qed.

Lemma find_is_some f l x : x ∈ l → f x = true → is_Some (List.find f l).
Proof.
  intros Hx Hf. destruct (List.find f l) eqn:E; [by eexists |].
  rewrite (find_none_elem f l x E Hx) in Hf. discriminate.
Qed.

Lemma elem_of_bfilter f l x : x ∈ List.filter f l ↔ x ∈ l ∧ f x = true.
Proof. rewrite !list_elem_of_In. apply filter_In. Qed.

Lemma bfilter_nil_iff f l : List.filter f l = [] ↔ ∀ x, x ∈ l → f x = false.
Proof.
  induction l as [|a l IH]; simpl.
  - split; [intros _ x Hx; inversion Hx | done].
  - destruct (f a) eqn:E.
    + split; [discriminate |].
      intros H. specialize (H a (list_elem_of_here _ _)). congruence.
    + rewrite IH. split.
      * intros H x Hx. apply elem_of_cons in Hx as [-> | Hx]; auto.
      * intros H x Hx. apply H. by apply list_elem_of_further.
Qed.

Lemma bfilter_all f l : (∀ x, x ∈ l → f x = true) → List.filter f l = l.
Proof.
  induction l as [|a l IH]; simpl; [done |].
  intros H. rewrite (H a (list_elem_of_here _ _)). f_equal.
  apply IH. intros x Hx. apply H. by apply list_elem_of_further.
Qed.

Lemma bfilter_length_pos f l x : x ∈ l → f x = true → (0 < length (List.filter f l))%nat.
Proof.
  intros Hx Hf.
  assert (x ∈ List.filter f l) as Hin by (by apply elem_of_bfilter).
  destruct (List.filter f l); [inversion Hin | simpl; lia].
Qed.
End list_facts.

(** ** add_request *)

(** An [INSERT] that names no [district] column violates the column's
    [NOT NULL] constraint, or an earlier one. *)
Lemma insert_without_district cols ts t :
  cols !! "district" = None → ∃ e, Store.insert_help_request cols ts t = Raise e.
Proof.
  intros Hd. unfold Store.insert_help_request.
  destruct (text_not_null "help_requests" "name" _); cbn; [| by eexists].
  destruct (text_not_null "help_requests" "contact" _); cbn; [| by eexists].
  destruct (text_not_null "help_requests" "location" _); cbn; [| by eexists].
  rewrite Hd. cbn. by eexists.
Qed.

(** Every call of [add_request] raises and leaves the database as it
    was: the statement names neither [district] nor [state], both
    [NOT NULL] without a default. *)
Lemma add_request_always_raises now data db :
  ∃ e, Store.add_request now data db = (Raise e, db).
Proof.
  unfold Store.add_request.
  destruct (Store.validate data) as [u|e]; [| by eexists].
  match goal with
  | |- context [match ?m with Ok _ => _ | Raise _ => _ end] =>
      assert (∃ e, m = Raise e) as [e ->]; [| by eexists]
  end.
  destruct (dict_item data "name"); cbn; [| by eexists].
  destruct (dict_item data "contact"); cbn; [| by eexists].
  destruct (dict_item data "location"); cbn; [| by eexists].
  destruct (dict_item data "category"); cbn; [| by eexists].
  destruct (dict_item data "description"); cbn; [| by eexists].
  repeat match goal with
  | |- context [sql_bind ?v] => destruct (sql_bind v); cbn; [| by eexists]
  end.
  by apply insert_without_district.
Qed.

(** C1 (defect).  The submission of the specification's example, all five
    required fields present, is not persisted: [add_request] raises
    sqlite3.IntegrityError on the [NOT NULL] column [district], returns
    no id, and the request cannot be retrieved afterwards. *)
Theorem add_request_example_raises :
  Store.add_request Examples.an_instant Examples.flood_request Store.init_db
    = (Raise (IntegrityError "NOT NULL constraint failed: help_requests.district"),
       Store.init_db)
  ∧ Store.validate Examples.flood_request = Ok ()
  ∧ Store.get_request_by_id 1
      (Store.add_request Examples.an_instant Examples.flood_request Store.init_db).2 = None.
Proof. vm_compute. done. Qed.

(** ** Validation of a submission *)

Lemma empty_is_falsy v : py_empty v → truthy v = false.
Proof. by intros [-> | [-> | [-> | ->]]]. Qed.

Lemma missing_field_found data field (fields : list string) :
  field ∈ fields →
  (data !! field = None ∨ ∃ v, data !! field = Some v ∧ py_empty v) →
  ∃ f, f ∈ fields ∧
       List.find (λ field, negb (truthy (dict_get data field))) fields = Some f.
Proof.
  intros Hin Hmiss.
  assert (negb (truthy (dict_get data field)) = true) as Hfalsy.
  { unfold dict_get. destruct Hmiss as [-> | (v & -> & Hv)]; simpl; [done |].
    by rewrite (empty_is_falsy v Hv). }
  destruct (find_is_some (λ field, negb (truthy (dict_get data field))) _ _ Hin Hfalsy)
    as [f Hf].
  exists f. split; [| done]. by apply find_some_elem in Hf as [? _].
Qed.

(** C3.  A submission in which a required field is absent or empty is
    rejected and nothing is stored: the handler answers 400 and leaves
    the table as it was, and [add_request] raises ValueError before it
    touches the database. *)
Theorem missing_required_field_rejected now data field st db :
  field ∈ Store.required_fields →
  (data !! field = None ∨ ∃ v, data !! field = Some v ∧ py_empty v) →
  (∃ f, f ∈ App.required_fields ∧
        App.submit_request now data st
          = ({| App.code := 400;
                App.payload := App.Error ("Missing required field: " +:+ f) |}, st))
  ∧ (∃ f, f ∈ Store.required_fields ∧
          Store.add_request now data db
            = (Raise (ValueError ("Missing required field: " +:+ f)), db)).
Proof.
  intros Hin Hmiss.
  destruct (missing_field_found data field _ Hin Hmiss) as (f & Hf & Hfind).
  split; exists f; (split; [done |]).
  - unfold App.submit_request.
    change App.required_fields with Store.required_fields. by rewrite Hfind.
  - unfold Store.add_request, Store.validate. by rewrite Hfind.
Qed.

Lemma missing_required_field_rejected_witness :
  (∃ f, f ∈ App.required_fields ∧
        App.submit_request Examples.an_instant (<["contact" := PStr ""]> Examples.flood_request)
          [Examples.posted 1 "pending" 0]
          = ({| App.code := 400;
                App.payload := App.Error ("Missing required field: " +:+ f) |},
             [Examples.posted 1 "pending" 0]))
  ∧ (∃ f, f ∈ Store.required_fields ∧
          Store.add_request Examples.an_instant (<["contact" := PStr ""]> Examples.flood_request)
            Store.init_db
            = (Raise (ValueError ("Missing required field: " +:+ f)), Store.init_db)).
Proof.
  apply (missing_required_field_rejected _ _ "contact").
  - unfold Store.required_fields. set_solver.
  - right. exists (PStr ""). split; [reflexivity |]. right. by left.
Defined.

(** ** people_affected of a submission *)

Lemma session_add_commit_ok v1 v2 v3 v4 v5 n s now st new_id st' :
  App.session_add_commit v1 v2 v3 v4 v5 n s now st = Ok (new_id, st') →
  ∃ row, st' = st ++ [row] ∧ App.id row = new_id ∧ new_id = App.max_id st + 1
         ∧ App.people_affected row = n ∧ App.status row = s ∧ App.timestamp row = now.
Proof.
  unfold App.session_add_commit.
  destruct (sql_bind v1 ≫= _); cbn; [| discriminate].
  destruct (sql_bind v2 ≫= _); cbn; [| discriminate].
  destruct (sql_bind v3 ≫= _); cbn; [| discriminate].
  destruct (sql_bind v4 ≫= _); cbn; [| discriminate].
  destruct (sql_bind v5 ≫= _); cbn; [| discriminate].
  destruct (in_int64 n); [| discriminate].
  intros [= <- <-]. eexists. by repeat split.
Qed.

(** C2 as the code has it.  An accepted submission appends exactly one
    row; its [people_affected] is the integer [int(v)] of the supplied
    value [v], whatever its sign, and 1 when the field is absent. *)
Theorem submit_request_people_affected now data st resp st' :
  App.submit_request now data st = (resp, st') →
  App.code resp = 201 →
  ∃ row, st' = st ++ [row]
    ∧ py_int (dict_get_default data "people_affected" (PInt 1)) = Ok (App.people_affected row)
    ∧ (data !! "people_affected" = None → App.people_affected row = 1)
    ∧ App.status row = "pending".
Proof.
  unfold App.submit_request.
  destruct (List.find _ _); [intros [= <- <-]; discriminate |].
  destruct (dict_item data "name"); cbn; [| intros [= <- <-]; discriminate].
  destruct (dict_item data "contact"); cbn; [| intros [= <- <-]; discriminate].
  destruct (dict_item data "location"); cbn; [| intros [= <- <-]; discriminate].
  destruct (dict_item data "category"); cbn; [| intros [= <- <-]; discriminate].
  destruct (dict_item data "description"); cbn; [| intros [= <- <-]; discriminate].
  destruct (py_int _) as [n|] eqn:Hint; cbn; [| intros [= <- <-]; discriminate].
  destruct (App.session_add_commit _ _ _ _ _ _ _ _ _) as [[new_id st'']|] eqn:Hadd;
    [| intros [= <- <-]; discriminate].
  intros [= <- <-] _.
  apply session_add_commit_ok in Hadd as (row & -> & _ & _ & Hn & Hs & _).
  exists row. repeat split; [congruence | | done].
  intros Habs. unfold dict_get_default in Hint. rewrite Habs in Hint.
  cbn in Hint. congruence.
Qed.

Lemma submit_request_people_affected_witness :
  ∃ row,
    (App.submit_request Examples.an_instant
       (<["people_affected" := PStr "4"]> Examples.flood_request) []).2 = [] ++ [row]
    ∧ py_int (dict_get_default (<["people_affected" := PStr "4"]> Examples.flood_request)
                "people_affected" (PInt 1)) = Ok (App.people_affected row)
    ∧ ((<["people_affected" := PStr "4"]> Examples.flood_request) !! "people_affected" = None
       → App.people_affected row = 1)
    ∧ App.status row = "pending".
Proof.
  apply (submit_request_people_affected Examples.an_instant _ []
           {| App.code := 201; App.payload := App.Submitted 1 |}).
  - vm_compute. reflexivity.
  - reflexivity.
Defined.

(** C2 as stated fails: a submission with [people_affected] 0 is accepted
    and stored with that value. *)
Lemma people_affected_zero_is_stored :
  ∃ row,
    App.submit_request Examples.an_instant
      (<["people_affected" := PInt 0]> Examples.flood_request) []
      = ({| App.code := 201; App.payload := App.Submitted 1 |}, [row])
    ∧ ¬ (1 ≤ App.people_affected row).
Proof.
  eexists. split; [vm_compute; reflexivity |]. simpl. lia.
Qed.

(** ** update_request_status and the resolve handler *)


Lemma app_set_status_same s r : App.status r = s → App.set_status s r = r.
Proof. destruct r; simpl. by intros ->. Qed.

Lemma fmap_id_on {A} (f : A → A) (l : list A) :
  (∀ x, x ∈ l → f x = x) → f <$> l = l.
Proof.
  induction l as [|a l IH]; intros H; csimpl; [done |].
  rewrite (H a (list_elem_of_here _ _)). f_equal.
  apply IH. intros x Hx. apply H. by apply list_elem_of_further.
Qed.

Lemma update_rows request_id s db :
  Store.rows (Store.help_requests (Store.update_request_status request_id s db).2)
  = (λ row, if bool_decide (Store.id row = request_id)
            then Store.set_status (Some s) row else row)
      <$> Store.rows (Store.help_requests db).
Proof. reflexivity. Qed.

(** An id that no row carries: no row matches, the result is False and
    the database is the same. *)
Lemma update_request_status_unknown request_id s db :
  request_id ∉ Store.id <$> Store.rows (Store.help_requests db) →
  Store.update_request_status request_id s db = (false, db).
Proof.
  intros Hnot.
  assert (∀ row, row ∈ Store.rows (Store.help_requests db) →
                 bool_decide (Store.id row = request_id) = false) as Hno.
  { intros row Hrow. apply bool_decide_eq_false. intros <-.
    apply Hnot. by apply list_elem_of_fmap_2. }
  unfold Store.update_request_status. f_equal.
  - apply bool_decide_eq_false.
    apply bfilter_nil_iff in Hno. rewrite Hno. simpl. lia.
  - rewrite fmap_id_on; [by destruct db as [[] ? ?] |].
    intros row Hrow. by rewrite (Hno row Hrow).
Qed.

Lemma resolve_request_unknown request_id st :
  request_id ∉ App.id <$> st →
  App.resolve_request request_id st
  = ({| App.code := 500; App.payload := App.Error "Internal server error" |}, st).
Proof.
  intros Hnot. unfold App.resolve_request, App.get_or_404.
  destruct (List.find _ st) as [r|] eqn:E; [| done].
  apply find_some_elem in E as [Hr Hid].
  apply bool_decide_eq_true in Hid. subst request_id.
  exfalso. apply Hnot. by apply list_elem_of_fmap_2.
Qed.

(** C6 (defect).  For the id 999, which identifies no stored request,
    [update_request_status] returns False and changes nothing, but the
    resolve handler answers 500, not 404: [get_or_404] raises the
    HTTPException inside the handler's [try], and [except Exception]
    catches it. *)
Theorem resolve_unknown_id_answers_500 :
  Store.update_request_status 999 "resolved"
      (Examples.with_requests [Examples.stored 1 "Idukki" "flood" (Some "pending") None])
    = (false, Examples.with_requests [Examples.stored 1 "Idukki" "flood" (Some "pending") None])
  ∧ App.get_or_404 999 [Examples.posted 1 "pending" 0] = Raise (HTTPException 404)
  ∧ App.resolve_request 999 [Examples.posted 1 "pending" 0]
    = ({| App.code := 500; App.payload := App.Error "Internal server error" |},
       [Examples.posted 1 "pending" 0]).
Proof. vm_compute. done. Qed.

(** C10.  [update_request_status] leaves the other two tables and the key
    counter as they were, keeps the rows in place, and changes in a row
    nothing but the status; a row with another id is the same row. *)
Theorem update_request_status_frame request_id s db :
  let db' := (Store.update_request_status request_id s db).2 in
  Store.region_alerts db' = Store.region_alerts db
  ∧ Store.emergency_contacts db' = Store.emergency_contacts db
  ∧ Store.seq (Store.help_requests db') = Store.seq (Store.help_requests db)
  ∧ Forall2
      (λ row row',
         (Store.id row ≠ request_id → row' = row)
         ∧ Store.set_status (Store.status row) row' = row)
      (Store.rows (Store.help_requests db)) (Store.rows (Store.help_requests db')).
Proof.
  intros db'. subst db'. repeat split; try reflexivity.
  rewrite update_rows. apply Forall2_fmap_r, Forall_Forall2_diag, Forall_forall.
  intros row _. unfold compose.
  destruct (bool_decide (Store.id row = request_id)) eqn:Hid.
  - apply bool_decide_eq_true in Hid. split; [done |]. by destruct row.
  - split; [done |]. by destruct row.
Qed.

(** C7.  For the id of a stored request and any string, the call
    returns True and the request then has that string as its status. *)
Theorem update_request_status_any_string request_id s db :
  request_id ∈ Store.id <$> Store.rows (Store.help_requests db) →
  let '(updated, db') := Store.update_request_status request_id s db in
  updated = true
  ∧ (∀ row, row ∈ Store.rows (Store.help_requests db') →
            Store.id row = request_id → Store.status row = Some s)
  ∧ (∃ d, Store.get_request_by_id request_id db' = Some d
          ∧ Store.d_id d = request_id ∧ Store.d_status d = Some s).
Proof.
  intros Hin.
  destruct (Store.update_request_status request_id s db) as [updated db'] eqn:E.
  assert (db' = (Store.update_request_status request_id s db).2) as Hdb by (by rewrite E).
  assert (∀ row, row ∈ Store.rows (Store.help_requests db') →
                 Store.id row = request_id → Store.status row = Some s) as Hall.
  { intros row Hrow Hid. rewrite Hdb, update_rows in Hrow.
    apply list_elem_of_fmap in Hrow as (row0 & -> & _).
    destruct (bool_decide (Store.id row0 = request_id)) eqn:Hid0; [done |].
    apply bool_decide_eq_false in Hid0. contradiction. }
  apply list_elem_of_fmap in Hin as (row & Hid & Hrow).
  split; [| split; [done |]].
  - unfold Store.update_request_status in E. injection E as <- _.
    apply bool_decide_eq_true.
    apply (bfilter_length_pos _ _ row Hrow). by apply bool_decide_eq_true.
  - assert (Store.set_status (Some s) row ∈ Store.rows (Store.help_requests db')) as Hnew.
    { rewrite Hdb, update_rows. apply list_elem_of_fmap. exists row.
      split; [| done]. by rewrite bool_decide_eq_true_2. }
    destruct (find_is_some (λ r, bool_decide (Store.id r = request_id)) _ _ Hnew) as [r Hr].
    { apply bool_decide_eq_true. by destruct row. }
    unfold Store.get_request_by_id. rewrite Hr. eexists. split; [done |].
    apply find_some_elem in Hr as [Hr1 Hr2]. apply bool_decide_eq_true in Hr2.
    simpl. split; [done |]. by apply Hall.
Qed.

Lemma update_request_status_any_string_witness :
  let '(updated, db') :=
    Store.update_request_status 1 "pending"
      (Examples.with_requests [Examples.stored 1 "Idukki" "flood" (Some "resolved") None]) in
  updated = true
  ∧ (∀ row, row ∈ Store.rows (Store.help_requests db') →
            Store.id row = 1 → Store.status row = Some "pending")
  ∧ (∃ d, Store.get_request_by_id 1 db' = Some d
          ∧ Store.d_id d = 1 ∧ Store.d_status d = Some "pending").
Proof.
  apply (update_request_status_any_string 1 "pending"
           (Examples.with_requests [Examples.stored 1 "Idukki" "flood" (Some "resolved") None])).
  vm_compute. apply list_elem_of_here.
Defined.

(** ** Resolving twice *)

Lemma mark_id request_id s row : Store.id (mark request_id s row) = Store.id row.
Proof. unfold mark. by destruct (bool_decide _), row. Qed.


Lemma app_mark_id request_id r : App.id (app_mark request_id r) = App.id r.
Proof. unfold app_mark. by destruct (bool_decide _), r. Qed.


Lemma update_request_status_known request_id s db :
  request_id ∈ Store.id <$> Store.rows (Store.help_requests db) →
  Store.update_request_status request_id s db
  = (true,
     Store.set_help_requests
       (Store.set_rows (mark request_id s <$> Store.rows (Store.help_requests db))
          (Store.help_requests db)) db).
Proof.
  intros Hin. apply list_elem_of_fmap in Hin as (row & Hid & Hrow).
  unfold Store.update_request_status. f_equal.
  apply bool_decide_eq_true.
  apply (bfilter_length_pos _ _ row Hrow). by apply bool_decide_eq_true.
Qed.

Lemma resolve_request_known request_id st :
  request_id ∈ App.id <$> st →
  App.resolve_request request_id st
  = ({| App.code := 200; App.payload := App.Resolved request_id |},
     app_mark request_id <$> st).
Proof.
  intros Hin. apply list_elem_of_fmap in Hin as (r & Hid & Hr).
  unfold App.resolve_request, App.get_or_404.
  destruct (find_is_some (λ r, bool_decide (App.id r = request_id)) st r Hr) as [r0 E].
  { by apply bool_decide_eq_true. }
  rewrite E. cbn.
  apply find_some_elem in E as [_ E]. apply bool_decide_eq_true in E. by rewrite E.
Qed.



Lemma ids_after_app_mark request_id (st : list App.HelpRequest) :
  App.id <$> (app_mark request_id <$> st) = App.id <$> st.
Proof.
  rewrite <- list_fmap_compose. apply list_fmap_ext. intros _ x _. apply app_mark_id.
Qed.



(** ** get_all_requests *)

#[local] Instance store_newer_first_total : Total Store.newer_first.
Proof.
  intros a b. unfold Store.newer_first.
  destruct (Store.timestamp a), (Store.timestamp b); simpl; try tauto. lia.
Qed.

#[local] Instance store_newer_first_trans : Transitive Store.newer_first.
Proof.
  intros a b c. unfold Store.newer_first.
  destruct (Store.timestamp a), (Store.timestamp b), (Store.timestamp c);
    simpl; try tauto. lia.
Qed.

#[local] Instance app_newer_first_total : Total App.newer_first.
Proof. intros a b. unfold App.newer_first. lia. Qed.

#[local] Instance app_newer_first_trans : Transitive App.newer_first.
Proof. intros a b c. unfold App.newer_first. lia. Qed.

Lemma and_iff_both (P Q P' Q' : Prop) : (P ↔ P') → (Q ↔ Q') → (P ∧ Q ↔ P' ∧ Q').
Proof. tauto. Qed.

Lemma supplied_iff (arg : option string) :
  Store.supplied arg = true ↔ ∃ s, arg = Some s ∧ s ≠ "".
Proof.
  destruct arg as [s|]; simpl.
  - rewrite negb_true_iff, bool_decide_eq_false. split; [eauto |].
    by intros (? & [= <-] & ?).
  - split; [discriminate | by intros (? & ? & _)].
Qed.

Lemma where_clause_iff category_arg status_arg row :
  Store.where_clause category_arg status_arg row = true ↔
    (∀ c, category_arg = Some c → c ≠ "" → Store.category row = c)
    ∧ (∀ s, status_arg = Some s → s ≠ "" → Store.status row = Some s).
Proof.
  unfold Store.where_clause. rewrite andb_true_iff. apply and_iff_both.
  - destruct (Store.supplied category_arg) eqn:E.
    + apply supplied_iff in E as (c & -> & Hc). rewrite bool_decide_eq_true. split.
      * intros [= ->] ? [= <-] _. done.
      * intros H. by rewrite (H c).
    + split; [| done]. intros _ c -> Hc.
      assert (Store.supplied (Some c) = true) as E' by (apply supplied_iff; eauto).
      congruence.
  - destruct (Store.supplied status_arg) eqn:E.
    + apply supplied_iff in E as (s & -> & Hs). rewrite bool_decide_eq_true. split.
      * intros -> ? [= <-] _. done.
      * intros H. by rewrite (H s).
    + split; [| done]. intros _ s -> Hs.
      assert (Store.supplied (Some s) = true) as E' by (apply supplied_iff; eauto).
      congruence.
Qed.

Lemma filter_by_iff category_arg status_arg r :
  App.filter_by category_arg status_arg r = true ↔
    (∀ c, category_arg = Some c → c ≠ "" → App.category r = c)
    ∧ (∀ s, status_arg = Some s → s ≠ "" → App.status r = s).
Proof.
  unfold App.filter_by. change App.supplied with Store.supplied.
  rewrite andb_true_iff. apply and_iff_both.
  - destruct (Store.supplied category_arg) eqn:E.
    + apply supplied_iff in E as (c & -> & Hc). rewrite bool_decide_eq_true. split.
      * intros [= ->] ? [= <-] _. done.
      * intros H. by rewrite (H c).
    + split; [| done]. intros _ c -> Hc.
      assert (Store.supplied (Some c) = true) as E' by (apply supplied_iff; eauto).
      congruence.
  - destruct (Store.supplied status_arg) eqn:E.
    + apply supplied_iff in E as (s & -> & Hs). rewrite bool_decide_eq_true. split.
      * intros [= ->] ? [= <-] _. done.
      * intros H. by rewrite (H s).
    + split; [| done]. intros _ s -> Hs.
      assert (Store.supplied (Some s) = true) as E' by (apply supplied_iff; eauto).
      congruence.
Qed.

(** C4 as the code has it.  A filter argument counts as supplied when it
    is a non-empty string.  [get_all_requests] returns the dictionaries
    of exactly the rows that match every supplied filter, each as often
    as it is stored, newest first (rows without a timestamp last); with
    no filter supplied these are all rows.  [GET /api/get_requests]
    answers 200 with the requests chosen and ordered the same way. *)
Theorem get_all_requests_filtered_newest_first category_arg status_arg db st :
  (∃ l, Store.get_all_requests category_arg status_arg db = Store.to_dict <$> l
        ∧ l ≡ₚ List.filter (Store.where_clause category_arg status_arg)
                 (Store.rows (Store.help_requests db))
        ∧ (∀ row, Store.where_clause category_arg status_arg row = true ↔
             (∀ c, category_arg = Some c → c ≠ "" → Store.category row = c)
             ∧ (∀ s, status_arg = Some s → s ≠ "" → Store.status row = Some s))
        ∧ StronglySorted (λ a b, Store.ts_le (Store.timestamp b) (Store.timestamp a)) l
        ∧ (Store.supplied category_arg = false → Store.supplied status_arg = false →
           l ≡ₚ Store.rows (Store.help_requests db)))
  ∧
  (∃ l, App.get_requests category_arg status_arg st
        = {| App.code := 200; App.payload := App.Requests l |}
        ∧ l ≡ₚ List.filter (App.filter_by category_arg status_arg) st
        ∧ (∀ r, App.filter_by category_arg status_arg r = true ↔
             (∀ c, category_arg = Some c → c ≠ "" → App.category r = c)
             ∧ (∀ s, status_arg = Some s → s ≠ "" → App.status r = s))
        ∧ StronglySorted (λ a b, App.timestamp b ≤ App.timestamp a) l
        ∧ (App.supplied category_arg = false → App.supplied status_arg = false → l ≡ₚ st)).
Proof.
  split.
  - eexists. split; [reflexivity |]. split; [apply merge_sort_Permutation |].
    split; [apply where_clause_iff |].
    split; [apply (StronglySorted_merge_sort Store.newer_first) |].
    intros Hc Hs. rewrite merge_sort_Permutation.
    rewrite bfilter_all; [done |].
    intros row _. unfold Store.where_clause. by rewrite Hc, Hs.
  - eexists. split; [reflexivity |]. split; [apply merge_sort_Permutation |].
    split; [apply filter_by_iff |].
    split; [apply (StronglySorted_merge_sort App.newer_first) |].
    intros Hc Hs. rewrite merge_sort_Permutation.
    rewrite bfilter_all; [done |].
    intros r _. unfold App.filter_by. by rewrite Hc, Hs.
Qed.

(** C4 as stated fails: with the empty string as the category filter the
    result holds a request whose category is not the empty string. *)
Lemma empty_category_filter_is_ignored :
  ∃ d,
    d ∈ Store.get_all_requests (Some "") None
          (Examples.with_requests
             [Examples.stored 1 "Idukki" "flood" (Some "pending") (Some Examples.an_instant)])
    ∧ Store.d_category d ≠ "".
Proof.
  exists (Store.to_dict
            (Examples.stored 1 "Idukki" "flood" (Some "pending") (Some Examples.an_instant))).
  split; [vm_compute; apply list_elem_of_here | discriminate].
Qed.

(** ** cleanup_old_requests *)

Lemma predates_iff now days row :
  0 ≤ days →
  Store.predates now days row = true ↔
    ∃ ts, Store.timestamp row = Some ts
          ∧ Store.sql_datetime ts < now `div` 1000000 - 86400 * days.
Proof.
  intros Hdays. unfold Store.predates, Store.cutoff.
  destruct (Z.ltb_spec days 0) as [? | _]; [lia |].
  destruct (Store.timestamp row) as [ts|].
  - rewrite Z.ltb_lt. split; [eauto |]. by intros (? & [= <-] & ?).
  - split; [discriminate | by intros (? & ? & _)].
Qed.

(** C8 as the code has it.  For [days] at least 0 the call deletes
    exactly the requests whose timestamp, read to whole seconds, is
    strictly before the current second minus [days] days; every other
    request stays, in place, and the other tables are as before.  With 0
    days every request stamped before the current second goes; when no
    request is older than [days] days none goes. *)
Theorem cleanup_old_requests_deletes_older now days db :
  0 ≤ days →
  let before := Store.rows (Store.help_requests db) in
  let db' := Store.cleanup_old_requests now days db in
  let after := Store.rows (Store.help_requests db') in
  after = List.filter (λ row, negb (Store.predates now days row)) before
  ∧ (∀ row, Store.predates now days row = true ↔
       ∃ ts, Store.timestamp row = Some ts
             ∧ Store.sql_datetime ts < now `div` 1000000 - 86400 * days)
  ∧ (∀ row, row ∈ after ↔ row ∈ before ∧ Store.predates now days row = false)
  ∧ Store.seq (Store.help_requests db') = Store.seq (Store.help_requests db)
  ∧ Store.region_alerts db' = Store.region_alerts db
  ∧ Store.emergency_contacts db' = Store.emergency_contacts db
  ∧ (days = 0 →
     (∀ row, row ∈ before →
        ∃ ts, Store.timestamp row = Some ts ∧ Store.sql_datetime ts < now `div` 1000000) →
     after = [])
  ∧ ((∀ row ts, row ∈ before → Store.timestamp row = Some ts →
        now `div` 1000000 - Store.sql_datetime ts ≤ 86400 * days) →
     after = before).
Proof.
  intros Hdays before db' after. subst before db' after. simpl.
  split; [done |]. split; [intros row; by apply predates_iff |].
  split; [| split; [done |]; split; [done |]; split; [done |]; split].
  - intros row. rewrite elem_of_bfilter, negb_true_iff. done.
  - intros -> Hall. apply bfilter_nil_iff. intros row Hrow.
    apply negb_false_iff, predates_iff; [done |].
    destruct (Hall row Hrow) as (ts & Hts & Hlt). exists ts. split; [done | lia].
  - intros Hall. apply bfilter_all. intros row Hrow.
    apply negb_true_iff. destruct (Store.predates now days row) eqn:E; [| done].
    apply predates_iff in E as (ts & Hts & Hlt); [| done].
    specialize (Hall row ts Hrow Hts). lia.
Qed.

Lemma cleanup_old_requests_deletes_older_witness :
  let db :=
    Examples.with_requests
      [Examples.stored 1 "Idukki" "flood" (Some "pending") (Some 1600000000000000);
       Examples.stored 2 "Idukki" "flood" (Some "pending") (Some 1699999999000000)] in
  let now := Examples.an_instant in
  let days := 30 in
  let before := Store.rows (Store.help_requests db) in
  let db' := Store.cleanup_old_requests now days db in
  let after := Store.rows (Store.help_requests db') in
  after = List.filter (λ row, negb (Store.predates now days row)) before
  ∧ (∀ row, Store.predates now days row = true ↔
       ∃ ts, Store.timestamp row = Some ts
             ∧ Store.sql_datetime ts < now `div` 1000000 - 86400 * days)
  ∧ (∀ row, row ∈ after ↔ row ∈ before ∧ Store.predates now days row = false)
  ∧ Store.seq (Store.help_requests db') = Store.seq (Store.help_requests db)
  ∧ Store.region_alerts db' = Store.region_alerts db
  ∧ Store.emergency_contacts db' = Store.emergency_contacts db
  ∧ (days = 0 →
     (∀ row, row ∈ before →
        ∃ ts, Store.timestamp row = Some ts ∧ Store.sql_datetime ts < now `div` 1000000) →
     after = [])
  ∧ ((∀ row ts, row ∈ before → Store.timestamp row = Some ts →
        now `div` 1000000 - Store.sql_datetime ts ≤ 86400 * days) →
     after = before).
Proof.
  apply (cleanup_old_requests_deletes_older Examples.an_instant 30). lia.
Defined.

(** C8 as stated fails: a request stamped in the current second survives
    [cleanup_old_requests] with 0 days. *)
Lemma cleanup_zero_keeps_current_second :
  Store.rows (Store.help_requests
    (Store.cleanup_old_requests Examples.an_instant 0
       (Examples.with_requests
          [Examples.stored 1 "Idukki" "flood" (Some "pending") (Some Examples.an_instant)])))
  = [Examples.stored 1 "Idukki" "flood" (Some "pending") (Some Examples.an_instant)].
Proof. vm_compute. reflexivity. Qed.

(** ** get_affected_regions *)

Lemma bfilter_bfilter {A} (f g : A → bool) (l : list A) :
  List.filter f (List.filter g l) = List.filter (λ x, g x && f x) l.
Proof.
  induction l as [|a l IH]; simpl; [done |].
  destruct (g a); simpl; [| done]. destruct (f a); by rewrite IH.
Qed.

Lemma bfilter_ext {A} (f g : A → bool) (l : list A) :
  (∀ x, f x = g x) → List.filter f l = List.filter g l.
Proof. intros H. induction l as [|a l IH]; simpl; [done |]. by rewrite H, IH. Qed.

Lemma group_is_pending_in db d s :
  List.filter (Store.in_region (d, s))
    (List.filter Store.is_pending (Store.rows (Store.help_requests db)))
  = pending_in db d s.
Proof.
  rewrite bfilter_bfilter. apply bfilter_ext. intros row.
  unfold Store.is_pending, Store.in_region, Store.region_of.
  rewrite <- andb_assoc. f_equal.
  destruct (bool_decide (Store.district row = d)) eqn:Ed,
           (bool_decide (Store.state row = s)) eqn:Es; simpl.
  - apply bool_decide_eq_true in Ed, Es. apply bool_decide_eq_true. congruence.
  - apply bool_decide_eq_false in Es. apply bool_decide_eq_false. congruence.
  - apply bool_decide_eq_false in Ed. apply bool_decide_eq_false. congruence.
  - apply bool_decide_eq_false in Ed. apply bool_decide_eq_false. congruence.
Qed.

(** C9.  The result has one entry for each pair of district and state
    that some pending request carries, and no other entry; the entry of a
    pair counts the pending requests of the pair, and its categories are
    the categories of those requests, each once, joined by commas. *)
Theorem get_affected_regions_groups_pending db :
  let out := Store.get_affected_regions db in
  NoDup ((λ e, (Store.r_district e, Store.r_state e)) <$> out)
  ∧ (∀ d s,
       (∃ e, e ∈ out ∧ Store.r_district e = d ∧ Store.r_state e = s) ↔
       (∃ row, row ∈ Store.rows (Store.help_requests db)
               ∧ Store.status row = Some "pending"
               ∧ Store.district row = d ∧ Store.state row = s))
  ∧ (∀ e, e ∈ out →
       let group := pending_in db (Store.r_district e) (Store.r_state e) in
       Store.request_count e = Z.of_nat (length group)
       ∧ ∃ cats, NoDup cats
           ∧ (∀ c, c ∈ cats ↔ ∃ row, row ∈ group ∧ Store.category row = c)
           ∧ Store.categories e = String.concat "," cats).
Proof.
  intros out. subst out. unfold Store.get_affected_regions.
  set (pending := List.filter Store.is_pending (Store.rows (Store.help_requests db))).
  split; [| split].
  - rewrite <- list_fmap_compose, fmap_id_on; [apply NoDup_remove_dups |].
    by intros [d s] _.
  - intros d s. split.
    + intros (e & He & <- & <-).
      apply list_elem_of_fmap in He as ([d s] & -> & Hk). simpl.
      apply elem_of_remove_dups, list_elem_of_fmap in Hk as (row & Hreg & Hrow).
      apply elem_of_bfilter in Hrow as [Hrow Hp].
      apply bool_decide_eq_true in Hp. injection Hreg as -> ->. by exists row.
    + intros (row & Hrow & Hp & <- & <-).
      eexists. split.
      * apply list_elem_of_fmap. exists (Store.region_of row). split; [reflexivity |].
        apply elem_of_remove_dups, list_elem_of_fmap_2, elem_of_bfilter.
        split; [done |]. by apply bool_decide_eq_true.
      * done.
  - intros e He. apply list_elem_of_fmap in He as ([d s] & -> & _). simpl.
    subst pending. rewrite (group_is_pending_in db d s). split; [done |].
    exists (remove_dups (Store.category <$> pending_in db d s)).
    split; [apply NoDup_remove_dups |]. split; [| done].
    intros c. rewrite elem_of_remove_dups, list_elem_of_fmap. split.
    + intros (row & -> & Hrow). by exists row.
    + intros (row & Hrow & <-). by exists row.
Qed.

(** ** The example run of the handlers *)

(** Submitting the example request to an empty table gives id 1 with
    status pending; resolving 1 makes it resolved, and the list of
    resolved requests then holds it. *)
Example submit_resolve_list :
  let '(r1, st1) := App.submit_request Examples.an_instant Examples.flood_request [] in
  let '(r2, st2) := App.resolve_request 1 st1 in
  r1 = {| App.code := 201; App.payload := App.Submitted 1 |}
  ∧ App.status <$> st1 = ["pending"]
  ∧ r2 = {| App.code := 200; App.payload := App.Resolved 1 |}
  ∧ App.get_requests None (Some "resolved") st2
    = {| App.code := 200;
         App.payload := App.Requests [Examples.posted 1 "resolved" Examples.an_instant] |}.
Proof. vm_compute. done. Qed.

(** * Further properties of the store *)

(** ** Emergency contacts *)

Lemma storable_bind v :
  storable v ↔ ∃ c, sql_bind v = Ok c ∧ c ≠ SNull.
Proof.
  destruct v as [|b|n|s|l|d]; simpl.
  - split; [done | by intros (c & [= <-] & ?)].
  - split; [eauto | done].
  - destruct (in_int64 n); split; eauto; try done. by intros (c & ? & _).
  - split; [eauto | done].
  - split; [done | by intros (c & ? & _)].
  - split; [done | by intros (c & ? & _)].
Qed.

Lemma text_not_null_ok tbl col c :
  c ≠ SNull → ∃ s, text_not_null tbl col c = Ok s.
Proof. destruct c; simpl; [done | eauto | eauto]. Qed.

Lemma text_not_null_inv tbl col c s :
  text_not_null tbl col c = Ok s → c ≠ SNull.
Proof. by destruct c. Qed.

Lemma max_contact_id_bound (l : list Store.emergency_contact) c :
  c ∈ l → Store.ec_id c ≤ Store.max_contact_id l.
Proof.
  induction l as [|a l IH]; [by intros H; inversion H |].
  intros [-> | H]%elem_of_cons; simpl; [lia |]. specialize (IH H). lia.
Qed.

Ltac in_list := repeat first [apply list_elem_of_here | apply list_elem_of_further].

(** Running a chain of binds without unfolding the steps. *)
Ltac run :=
  cbn -[sql_bind text_not_null text_nullable py_int Store.insert_emergency_contact
        Store.insert_region_alert App.session_add_commit].
Ltac run_in H :=
  cbn -[sql_bind text_not_null text_nullable py_int Store.insert_emergency_contact
        Store.insert_region_alert App.session_add_commit] in H.

Lemma unstorable_bind v c : unstorable v → sql_bind v = Ok c → c = SNull.
Proof.
  destruct v as [|b|n|s|l|d]; simpl; try done.
  - by intros _ [= <-].
  - by intros ->.
Qed.

Lemma add_emergency_contact_ok_values contact_data db i :
  (Store.add_emergency_contact contact_data db).1 = Ok i →
  ∀ k, k ∈ contact_keys → ∃ v, contact_data !! k = Some v ∧ ¬ unstorable v.
Proof.
  unfold Store.add_emergency_contact, contact_keys, dict_item. intros Hi k Hk.
  destruct (contact_data !! "name") as [v1|] eqn:E1; run_in Hi; [| done].
  destruct (contact_data !! "phone") as [v2|] eqn:E2; run_in Hi; [| done].
  destruct (contact_data !! "district") as [v3|] eqn:E3; run_in Hi; [| done].
  destruct (contact_data !! "state") as [v4|] eqn:E4; run_in Hi; [| done].
  destruct (contact_data !! "category") as [v5|] eqn:E5; run_in Hi; [| done].
  destruct (sql_bind v1) as [c1|] eqn:B1; run_in Hi; [| done].
  destruct (sql_bind v2) as [c2|] eqn:B2; run_in Hi; [| done].
  destruct (sql_bind v3) as [c3|] eqn:B3; run_in Hi; [| done].
  destruct (sql_bind v4) as [c4|] eqn:B4; run_in Hi; [| done].
  destruct (sql_bind v5) as [c5|] eqn:B5; run_in Hi; [| done].
  unfold Store.insert_emergency_contact in Hi.
  destruct (text_not_null _ "name" c1) eqn:T1; run_in Hi; [| done].
  destruct (text_not_null _ "phone" c2) eqn:T2; run_in Hi; [| done].
  destruct (text_not_null _ "district" c3) eqn:T3; run_in Hi; [| done].
  destruct (text_not_null _ "state" c4) eqn:T4; run_in Hi; [| done].
  destruct (text_not_null _ "category" c5) eqn:T5; run_in Hi; [| done].
  apply text_not_null_inv in T1, T2, T3, T4, T5.
  repeat (apply elem_of_cons in Hk as [-> | Hk];
          [eexists; split; [done |]; intros Hu;
           match goal with
           | B : sql_bind ?v = Ok ?c, N : ?c ≠ SNull |- _ =>
               first [ apply N, (unstorable_bind v c Hu B) | fail ]
           end |]).
  inversion Hk.
Qed.

Lemma add_emergency_contact_accepts contact_data db :
  (∀ k, k ∈ contact_keys → ∃ v, contact_data !! k = Some v ∧ storable v) →
  ∃ i, (Store.add_emergency_contact contact_data db).1 = Ok i.
Proof.
  unfold Store.add_emergency_contact, contact_keys, dict_item. intros Hall.
  assert (∀ k, k ∈ ["name"; "phone"; "district"; "state"; "category"] →
               ∃ v c, contact_data !! k = Some v ∧ sql_bind v = Ok c ∧ c ≠ SNull) as H.
  { intros k Hk. destruct (Hall k Hk) as (v & Hv & Hs).
    apply storable_bind in Hs as (c & ? & ?). eauto. }
  destruct (H "name") as (v1 & c1 & -> & B1 & N1); [in_list |].
  destruct (H "phone") as (v2 & c2 & -> & B2 & N2); [in_list |].
  destruct (H "district") as (v3 & c3 & -> & B3 & N3); [in_list |].
  destruct (H "state") as (v4 & c4 & -> & B4 & N4); [in_list |].
  destruct (H "category") as (v5 & c5 & -> & B5 & N5); [in_list |].
  run. rewrite B1. run. rewrite B2. run. rewrite B3. run. rewrite B4. run.
  rewrite B5. run. unfold Store.insert_emergency_contact.
  destruct (text_not_null_ok "emergency_contacts" "name" c1 N1) as [? ->]. run.
  destruct (text_not_null_ok "emergency_contacts" "phone" c2 N2) as [? ->]. run.
  destruct (text_not_null_ok "emergency_contacts" "district" c3 N3) as [? ->]. run.
  destruct (text_not_null_ok "emergency_contacts" "state" c4 N4) as [? ->]. run.
  destruct (text_not_null_ok "emergency_contacts" "category" c5 N5) as [? ->]. run.
  eauto.
Qed.

Lemma add_emergency_contact_result contact_data db :
  (∃ e, Store.add_emergency_contact contact_data db = (Raise e, db))
  ∨ (∃ i, (Store.add_emergency_contact contact_data db).1 = Ok i).
Proof.
  unfold Store.add_emergency_contact.
  match goal with
  | |- context [match ?m with Ok _ => _ | Raise _ => _ end] => destruct m as [[? ?]|]
  end; [right | left]; by eexists.
Qed.

(** X1.  [add_emergency_contact] returns an id when each of the five
    keys is present with a string, a boolean or an integer of 64 bits.
    It raises, and the database is as before, when one of the keys is
    absent or holds None, a list, a dict or an integer outside 64
    bits. *)
Theorem add_emergency_contact_accepts_and_rejects contact_data db :
  ((∀ k, k ∈ contact_keys → ∃ v, contact_data !! k = Some v ∧ storable v) →
   ∃ i, (Store.add_emergency_contact contact_data db).1 = Ok i)
  ∧ ((∃ k, k ∈ contact_keys
           ∧ (contact_data !! k = None
              ∨ ∃ v, contact_data !! k = Some v ∧ unstorable v)) →
     ∃ e, Store.add_emergency_contact contact_data db = (Raise e, db)).
Proof.
  split; [apply add_emergency_contact_accepts |].
  intros (k & Hk & Hbad).
  destruct (add_emergency_contact_result contact_data db) as [He | [i Hi]]; [done |].
  exfalso.
  destruct (add_emergency_contact_ok_values _ _ _ Hi k Hk) as (v & Hv & Hgood).
  destruct Hbad as [Hnone | (v' & Hv' & Hu)]; [congruence |].
  apply Hgood. congruence.
Qed.

Lemma insert_emergency_contact_inv p1 p2 p3 p4 p5 t i t' :
  Store.insert_emergency_contact p1 p2 p3 p4 p5 t = Ok (i, t') →
  i = Z.max (Store.seq t) (Store.max_contact_id (Store.rows t)) + 1
  ∧ ∃ row, t' = {| Store.rows := Store.rows t ++ [row]; Store.seq := i |}
           ∧ Store.ec_id row = i ∧ Store.ec_is_active row = Some true
           ∧ text_not_null "emergency_contacts" "name" p1 = Ok (Store.ec_name row)
           ∧ text_not_null "emergency_contacts" "phone" p2 = Ok (Store.ec_phone row)
           ∧ text_not_null "emergency_contacts" "district" p3 = Ok (Store.ec_district row)
           ∧ text_not_null "emergency_contacts" "state" p4 = Ok (Store.ec_state row)
           ∧ text_not_null "emergency_contacts" "category" p5 = Ok (Store.ec_category row).
Proof.
  unfold Store.insert_emergency_contact.
  destruct (text_not_null _ "name" p1); run; [| done].
  destruct (text_not_null _ "phone" p2); run; [| done].
  destruct (text_not_null _ "district" p3); run; [| done].
  destruct (text_not_null _ "state" p4); run; [| done].
  destruct (text_not_null _ "category" p5); run; [| done].
  intros [= <- <-]. split; [done |]. eexists. by repeat split.
Qed.

Lemma add_emergency_contact_inv contact_data db i db' :
  Store.add_emergency_contact contact_data db = (Ok i, db') →
  i = Z.max (Store.seq (Store.emergency_contacts db))
            (Store.max_contact_id (Store.rows (Store.emergency_contacts db))) + 1
  ∧ ∃ row, db' = Store.set_emergency_contacts
                   {| Store.rows := Store.rows (Store.emergency_contacts db) ++ [row];
                      Store.seq := i |} db
           ∧ Store.ec_id row = i ∧ Store.ec_is_active row = Some true.
Proof.
  unfold Store.add_emergency_contact.
  destruct (dict_item contact_data "name"); run; [| done].
  destruct (dict_item contact_data "phone"); run; [| done].
  destruct (dict_item contact_data "district"); run; [| done].
  destruct (dict_item contact_data "state"); run; [| done].
  destruct (dict_item contact_data "category"); run; [| done].
  repeat match goal with
  | |- context [sql_bind ?v] => destruct (sql_bind v); run; [| done]
  end.
  destruct (Store.insert_emergency_contact _ _ _ _ _ _) as [[j t']|] eqn:E; [| done].
  intros [= <- <-].
  apply insert_emergency_contact_inv in E as (-> & row & -> & ? & ? & _).
  split; [done |]. by exists row.
Qed.

(** X2.  A contact given by five strings is stored as given and active,
    under an id above every id in the table; [get_contacts_by_region]
    then returns it for its district and state beside the contacts
    returned before, and the answer for every other region is as
    before. *)
Theorem add_emergency_contact_round_trip contact_data db n p d s c :
  contact_data !! "name" = Some (PStr n) →
  contact_data !! "phone" = Some (PStr p) →
  contact_data !! "district" = Some (PStr d) →
  contact_data !! "state" = Some (PStr s) →
  contact_data !! "category" = Some (PStr c) →
  let old := Store.rows (Store.emergency_contacts db) in
  let i := Z.max (Store.seq (Store.emergency_contacts db)) (Store.max_contact_id old) + 1 in
  let row := {| Store.ec_id := i; Store.ec_name := n; Store.ec_phone := p;
                Store.ec_district := d; Store.ec_state := s; Store.ec_category := c;
                Store.ec_is_active := Some true |} in
  let db' := (Store.add_emergency_contact contact_data db).2 in
  (Store.add_emergency_contact contact_data db).1 = Ok i
  ∧ Store.rows (Store.emergency_contacts db') = old ++ [row]
  ∧ (∀ c', c' ∈ old → Store.ec_id c' < i)
  ∧ Store.get_contacts_by_region d s db' ≡ₚ row :: Store.get_contacts_by_region d s db
  ∧ (∀ d' s', (d', s') ≠ (d, s) →
       Store.get_contacts_by_region d' s' db' ≡ₚ Store.get_contacts_by_region d' s' db).
Proof.
  intros E1 E2 E3 E4 E5 old i row db'. subst db'.
  unfold Store.add_emergency_contact, dict_item. rewrite E1, E2, E3, E4, E5. cbn.
  fold old. fold i. fold row.
  split; [done |]. split; [done |]. split; [| split].
  - intros c' Hc'. apply max_contact_id_bound in Hc'. subst i. fold old. lia.
  - unfold Store.get_contacts_by_region. cbn. fold old.
    rewrite List.filter_app. cbn. rewrite !bool_decide_eq_true_2 by done. cbn.
    by rewrite Permutation_app_comm.
  - intros d' s' Hne. unfold Store.get_contacts_by_region. cbn. fold old.
    rewrite List.filter_app. cbn.
    destruct (bool_decide (d = d')) eqn:Ed, (bool_decide (s = s')) eqn:Es; cbn;
      try by rewrite app_nil_r.
    apply bool_decide_eq_true in Ed, Es. congruence.
Qed.

Lemma add_emergency_contact_round_trip_witness :
  let contact_data : gmap string pyval :=
    <["name" := PStr "Fire station"]> (<["phone" := PStr "101"]>
    (<["district" := PStr "Idukki"]> (<["state" := PStr "Kerala"]>
    (<["category" := PStr "fire"]> ∅)))) in
  let db := Store.init_db in
  let old := Store.rows (Store.emergency_contacts db) in
  let i := Z.max (Store.seq (Store.emergency_contacts db)) (Store.max_contact_id old) + 1 in
  let row := {| Store.ec_id := i; Store.ec_name := "Fire station"; Store.ec_phone := "101";
                Store.ec_district := "Idukki"; Store.ec_state := "Kerala";
                Store.ec_category := "fire"; Store.ec_is_active := Some true |} in
  let db' := (Store.add_emergency_contact contact_data db).2 in
  (Store.add_emergency_contact contact_data db).1 = Ok i
  ∧ Store.rows (Store.emergency_contacts db') = old ++ [row]
  ∧ (∀ c', c' ∈ old → Store.ec_id c' < i)
  ∧ Store.get_contacts_by_region "Idukki" "Kerala" db'
    ≡ₚ row :: Store.get_contacts_by_region "Idukki" "Kerala" db
  ∧ (∀ d' s', (d', s') ≠ ("Idukki", "Kerala") →
       Store.get_contacts_by_region d' s' db' ≡ₚ Store.get_contacts_by_region d' s' db).
Proof.
  apply (add_emergency_contact_round_trip _ Store.init_db
           "Fire station" "101" "Idukki" "Kerala" "fire"); reflexivity.
Defined.

(** X3.  When one of the five keys is absent, [add_emergency_contact]
    raises KeyError for the first absent key in the order name, phone,
    district, state, category, and the database is as before. *)
Theorem add_emergency_contact_missing_key contact_data db k :
  k ∈ contact_keys → contact_data !! k = None →
  ∃ before missing after,
    contact_keys = before ++ missing :: after
    ∧ (∀ b, b ∈ before → is_Some (contact_data !! b))
    ∧ contact_data !! missing = None
    ∧ Store.add_emergency_contact contact_data db = (Raise (KeyError missing), db).
Proof.
  intros Hk Hnone. unfold Store.add_emergency_contact, dict_item, contact_keys in *.
  destruct (contact_data !! "name") as [v1|] eqn:E1;
    [| exists [], "name", ["phone"; "district"; "state"; "category"];
       repeat split; [by intros ? ?%elem_of_nil | done] ].
  destruct (contact_data !! "phone") as [v2|] eqn:E2;
    [| exists ["name"], "phone", ["district"; "state"; "category"];
       repeat split; [| done];
       intros b Hb; repeat (apply elem_of_cons in Hb as [-> | Hb]; [by eexists |]);
       by apply elem_of_nil in Hb ].
  destruct (contact_data !! "district") as [v3|] eqn:E3;
    [| exists ["name"; "phone"], "district", ["state"; "category"];
       repeat split; [| done];
       intros b Hb; repeat (apply elem_of_cons in Hb as [-> | Hb]; [by eexists |]);
       by apply elem_of_nil in Hb ].
  destruct (contact_data !! "state") as [v4|] eqn:E4;
    [| exists ["name"; "phone"; "district"], "state", ["category"];
       repeat split; [| done];
       intros b Hb; repeat (apply elem_of_cons in Hb as [-> | Hb]; [by eexists |]);
       by apply elem_of_nil in Hb ].
  destruct (contact_data !! "category") as [v5|] eqn:E5;
    [| exists ["name"; "phone"; "district"; "state"], "category", [];
       repeat split; [| done];
       intros b Hb; repeat (apply elem_of_cons in Hb as [-> | Hb]; [by eexists |]);
       by apply elem_of_nil in Hb ].
  exfalso.
  repeat (apply elem_of_cons in Hk as [-> | Hk]; [congruence |]).
  by apply elem_of_nil in Hk.
Qed.

Lemma add_emergency_contact_missing_key_witness :
  ∃ before missing after,
    contact_keys = before ++ missing :: after
    ∧ (∀ b, b ∈ before → is_Some ((<["name" := PStr "Fire station"]> ∅ : gmap string pyval) !! b))
    ∧ (<["name" := PStr "Fire station"]> ∅ : gmap string pyval) !! missing = None
    ∧ Store.add_emergency_contact (<["name" := PStr "Fire station"]> ∅) Store.init_db
      = (Raise (KeyError missing), Store.init_db).
Proof.
  apply (add_emergency_contact_missing_key (<["name" := PStr "Fire station"]> ∅)
           Store.init_db "state").
  - unfold contact_keys. in_list.
  - reflexivity.
Defined.

(** X4.  Contact ids only grow: of two calls of [add_emergency_contact]
    that both return an id, the later returns the larger one, and ids
    that were pairwise distinct before the two calls are so after
    them. *)
Theorem emergency_contact_ids_increase data1 data2 db i1 db1 i2 db2 :
  Store.add_emergency_contact data1 db = (Ok i1, db1) →
  Store.add_emergency_contact data2 db1 = (Ok i2, db2) →
  i1 < i2
  ∧ (NoDup (Store.ec_id <$> Store.rows (Store.emergency_contacts db)) →
     NoDup (Store.ec_id <$> Store.rows (Store.emergency_contacts db2))).
Proof.
  intros H1 H2.
  apply add_emergency_contact_inv in H1 as (Hi1 & r1 & -> & Hr1 & _).
  apply add_emergency_contact_inv in H2 as (Hi2 & r2 & -> & Hr2 & _).
  cbn in *. split; [lia |].
  intros Hnd. rewrite !fmap_app. cbn. rewrite Hr1, Hr2.
  assert (∀ j, j ∈ Store.ec_id <$> Store.rows (Store.emergency_contacts db) → j < i1) as Hlt.
  { intros j (c & -> & Hc)%list_elem_of_fmap. apply max_contact_id_bound in Hc. lia. }
  apply NoDup_app. split; [apply NoDup_app; split; [done | split] | split].
  - intros j Hj [->|[]%elem_of_nil]%elem_of_cons. specialize (Hlt _ Hj). lia.
  - apply NoDup_singleton.
  - intros j Hj [->|[]%elem_of_nil]%elem_of_cons.
    apply elem_of_app in Hj as [Hj | [->|[]%elem_of_nil]%elem_of_cons].
    + specialize (Hlt _ Hj). lia.
    + lia.
  - apply NoDup_singleton.
Qed.

Lemma emergency_contact_ids_increase_witness :
  1 < 2
  ∧ (NoDup (Store.ec_id <$> Store.rows (Store.emergency_contacts Store.init_db)) →
     NoDup (Store.ec_id <$> Store.rows (Store.emergency_contacts
       (Store.add_emergency_contact
          (<["name" := PStr "Clinic"]> (<["phone" := PStr "102"]>
           (<["district" := PStr "Idukki"]> (<["state" := PStr "Kerala"]>
           (<["category" := PStr "medical"]> ∅)))))
          (Store.add_emergency_contact
             (<["name" := PStr "Fire station"]> (<["phone" := PStr "101"]>
              (<["district" := PStr "Idukki"]> (<["state" := PStr "Kerala"]>
              (<["category" := PStr "fire"]> ∅)))))
             Store.init_db).2).2))).
Proof.
  eapply (emergency_contact_ids_increase
           (<["name" := PStr "Fire station"]> (<["phone" := PStr "101"]>
            (<["district" := PStr "Idukki"]> (<["state" := PStr "Kerala"]>
            (<["category" := PStr "fire"]> ∅)))))
           (<["name" := PStr "Clinic"]> (<["phone" := PStr "102"]>
            (<["district" := PStr "Idukki"]> (<["state" := PStr "Kerala"]>
            (<["category" := PStr "medical"]> ∅)))))
           Store.init_db 1 _ 2 _).
  - vm_compute. reflexivity.
  - vm_compute. reflexivity.
Defined.

(** ** Region alerts *)

Lemma add_region_alert_tables now alert_data db :
  Store.help_requests (Store.add_region_alert now alert_data db).2 = Store.help_requests db
  ∧ Store.emergency_contacts (Store.add_region_alert now alert_data db).2
    = Store.emergency_contacts db.
Proof.
  unfold Store.add_region_alert.
  match goal with
  | |- context [match ?m with Ok _ => _ | Raise _ => _ end] => destruct m as [[? ?]|]
  end; done.
Qed.

Lemma add_emergency_contact_tables contact_data db :
  Store.help_requests (Store.add_emergency_contact contact_data db).2 = Store.help_requests db
  ∧ Store.region_alerts (Store.add_emergency_contact contact_data db).2
    = Store.region_alerts db.
Proof.
  unfold Store.add_emergency_contact.
  match goal with
  | |- context [match ?m with Ok _ => _ | Raise _ => _ end] => destruct m as [[? ?]|]
  end; done.
Qed.

(** X5.  Adding a contact or an alert, whether it succeeds or raises,
    changes nothing a request query reads: the list of requests, a
    lookup by id and the affected regions are as before; an alert also
    leaves the contacts of every region as they were. *)
Theorem contacts_and_alerts_leave_requests now data db :
  let db1 := (Store.add_emergency_contact data db).2 in
  let db2 := (Store.add_region_alert now data db).2 in
  (∀ c s, Store.get_all_requests c s db1 = Store.get_all_requests c s db
          ∧ Store.get_all_requests c s db2 = Store.get_all_requests c s db)
  ∧ (∀ i, Store.get_request_by_id i db1 = Store.get_request_by_id i db
          ∧ Store.get_request_by_id i db2 = Store.get_request_by_id i db)
  ∧ Store.get_affected_regions db1 = Store.get_affected_regions db
  ∧ Store.get_affected_regions db2 = Store.get_affected_regions db
  ∧ (∀ d s, Store.get_contacts_by_region d s db2 = Store.get_contacts_by_region d s db).
Proof.
  intros db1 db2. subst db1 db2.
  destruct (add_emergency_contact_tables data db) as [Hc _].
  destruct (add_region_alert_tables now data db) as [Ha1 Ha2].
  unfold Store.get_all_requests, Store.get_request_by_id, Store.get_affected_regions,
    Store.get_contacts_by_region.
  rewrite Hc, Ha1, Ha2. done.
Qed.

(** X6.  An alert whose district, state, alert_type and severity are
    strings: without a description key the call raises KeyError and
    stores nothing; with the description None it stores the alert with a
    NULL description, status active, stamped with the current second,
    under an id above every alert id in the table. *)
Theorem add_region_alert_description now alert_data db d s a v :
  alert_data !! "district" = Some (PStr d) →
  alert_data !! "state" = Some (PStr s) →
  alert_data !! "alert_type" = Some (PStr a) →
  alert_data !! "severity" = Some (PStr v) →
  (alert_data !! "description" = None →
   Store.add_region_alert now alert_data db = (Raise (KeyError "description"), db))
  ∧ (alert_data !! "description" = Some PNone →
     let old := Store.rows (Store.region_alerts db) in
     let i := Z.max (Store.seq (Store.region_alerts db)) (Store.max_alert_id old) + 1 in
     Store.add_region_alert now alert_data db
     = (Ok i,
        Store.set_region_alerts
          {| Store.rows :=
               old ++ [{| Store.ra_id := i; Store.ra_district := d; Store.ra_state := s;
                          Store.ra_alert_type := a; Store.ra_severity := v;
                          Store.ra_description := None;
                          Store.ra_timestamp := Some (now `div` 1000000 * 1000000);
                          Store.ra_status := Some "active" |}];
             Store.seq := i |} db)
     ∧ ∀ r, r ∈ old → Store.ra_id r < i).
Proof.
  intros E1 E2 E3 E4. split.
  - intros E5. unfold Store.add_region_alert, dict_item.
    by rewrite E1, E2, E3, E4, E5.
  - intros E5 old i. unfold Store.add_region_alert, dict_item.
    rewrite E1, E2, E3, E4, E5. split; [done |].
    intros r Hr. subst i.
    assert (Store.ra_id r ≤ Store.max_alert_id old); [| lia].
    clear -Hr. induction old as [|x old IH]; [by apply elem_of_nil in Hr |].
    apply elem_of_cons in Hr as [-> | Hr]; simpl; [lia |]. specialize (IH Hr). lia.
Qed.

Lemma add_region_alert_description_witness :
  let alert_data : gmap string pyval :=
    <["district" := PStr "Idukki"]> (<["state" := PStr "Kerala"]>
    (<["alert_type" := PStr "flood"]> (<["severity" := PStr "high"]>
    (<["description" := PNone]> ∅)))) in
  (alert_data !! "description" = None →
   Store.add_region_alert Examples.an_instant alert_data Store.init_db
   = (Raise (KeyError "description"), Store.init_db))
  ∧ (alert_data !! "description" = Some PNone →
     let old := Store.rows (Store.region_alerts Store.init_db) in
     let i := Z.max (Store.seq (Store.region_alerts Store.init_db)) (Store.max_alert_id old) + 1 in
     Store.add_region_alert Examples.an_instant alert_data Store.init_db
     = (Ok i,
        Store.set_region_alerts
          {| Store.rows :=
               old ++ [{| Store.ra_id := i; Store.ra_district := "Idukki";
                          Store.ra_state := "Kerala";
                          Store.ra_alert_type := "flood"; Store.ra_severity := "high";
                          Store.ra_description := None;
                          Store.ra_timestamp := Some (Examples.an_instant `div` 1000000 * 1000000);
                          Store.ra_status := Some "active" |}];
             Store.seq := i |} Store.init_db)
     ∧ ∀ r, r ∈ old → Store.ra_id r < i).
Proof.
  apply (add_region_alert_description Examples.an_instant _ Store.init_db
           "Idukki" "Kerala" "flood" "high"); reflexivity.
Defined.

(** ** Cleaning up, looking up and listing requests *)

Lemma bfilter_subsumed {A} (f g : A → bool) (l : list A) :
  (∀ x, g x = true → f x = true) → List.filter g (List.filter f l) = List.filter g l.
Proof.
  intros H. induction l as [|a l IH]; simpl; [done |].
  destruct (f a) eqn:Ef; simpl.
  - by rewrite IH.
  - destruct (g a) eqn:Eg; [| done]. rewrite (H a Eg) in Ef. discriminate.
Qed.

Lemma database_eta db :
  Store.set_help_requests
    (Store.set_rows (Store.rows (Store.help_requests db)) (Store.help_requests db)) db = db.
Proof. by destruct db as [[] ? ?]. Qed.

(** X7.  A later cleanup subsumes an earlier one: running
    [cleanup_old_requests] at [now1] and again at a later [now2], with
    at most as many days, leaves what the second call alone leaves.  In
    particular the call is idempotent. *)
Theorem cleanup_later_subsumes now1 now2 days1 days2 db :
  now1 ≤ now2 → 0 ≤ days2 ≤ days1 →
  Store.cleanup_old_requests now2 days2 (Store.cleanup_old_requests now1 days1 db)
  = Store.cleanup_old_requests now2 days2 db.
Proof.
  intros Hnow Hdays. unfold Store.cleanup_old_requests. cbn.
  unfold Store.set_help_requests, Store.set_rows. cbn. do 2 f_equal.
  apply bfilter_subsumed. intros row. rewrite !negb_true_iff.
  intros H2. destruct (Store.predates now1 days1 row) eqn:H1; [| done].
  apply predates_iff in H1 as (ts & Hts & Hlt); [| lia].
  assert (Store.predates now2 days2 row = true) as H2'; [| congruence].
  apply predates_iff; [lia |]. exists ts. split; [done |].
  assert (now1 `div` 1000000 ≤ now2 `div` 1000000) by (apply Z.div_le_mono; lia).
  lia.
Qed.

Lemma cleanup_later_subsumes_witness :
  Store.cleanup_old_requests (Examples.an_instant + 5000000) 7
    (Store.cleanup_old_requests Examples.an_instant 30
       (Examples.with_requests
          [Examples.stored 1 "Idukki" "flood" (Some "pending") (Some 1600000000000000);
           Examples.stored 2 "Idukki" "flood" (Some "pending") (Some 1699000000000000)]))
  = Store.cleanup_old_requests (Examples.an_instant + 5000000) 7
      (Examples.with_requests
         [Examples.stored 1 "Idukki" "flood" (Some "pending") (Some 1600000000000000);
          Examples.stored 2 "Idukki" "flood" (Some "pending") (Some 1699000000000000)]).
Proof.
  apply cleanup_later_subsumes; unfold Examples.an_instant; lia.
Defined.

(** X8.  With a negative number of days the modifier handed to SQLite
    reads [--n days]; the cutoff is NULL and nothing is deleted. *)
Theorem cleanup_negative_days_deletes_nothing now days db :
  days < 0 → Store.cleanup_old_requests now days db = db.
Proof.
  intros Hneg. unfold Store.cleanup_old_requests.
  rewrite bfilter_all; [apply database_eta |].
  intros row _. unfold Store.predates, Store.cutoff.
  destruct (Z.ltb_spec days 0); [| lia]. by destruct (Store.timestamp row).
Qed.

Lemma cleanup_negative_days_deletes_nothing_witness :
  Store.cleanup_old_requests Examples.an_instant (-1)
    (Examples.with_requests [Examples.stored 1 "Idukki" "flood" (Some "pending") (Some 0)])
  = Examples.with_requests [Examples.stored 1 "Idukki" "flood" (Some "pending") (Some 0)].
Proof. apply cleanup_negative_days_deletes_nothing. lia. Defined.

Lemma find_unique_id (l : list Store.help_request) row :
  NoDup (Store.id <$> l) → row ∈ l →
  List.find (λ r, bool_decide (Store.id r = Store.id row)) l = Some row.
Proof.
  induction l as [|a l IH]; [by intros _ ?%elem_of_nil |].
  rewrite fmap_cons, NoDup_cons. intros [Hnotin Hnd] Hrow. simpl.
  apply elem_of_cons in Hrow as [-> | Hrow].
  - by rewrite bool_decide_eq_true_2.
  - rewrite bool_decide_eq_false_2; [by apply IH |].
    intros Heq. apply Hnotin. rewrite Heq. by apply list_elem_of_fmap_2.
Qed.

Lemma NoDup_ids_bfilter (f : Store.help_request → bool) l :
  NoDup (Store.id <$> l) → NoDup (Store.id <$> List.filter f l).
Proof.
  induction l as [|a l IH]; [done |].
  rewrite fmap_cons, NoDup_cons. intros [Hnotin Hnd]. simpl.
  destruct (f a); [| by apply IH].
  rewrite fmap_cons, NoDup_cons. split; [| by apply IH].
  intros (r & Hid & Hr)%list_elem_of_fmap. apply Hnotin.
  apply elem_of_bfilter in Hr as [Hr _]. rewrite Hid. by apply list_elem_of_fmap_2.
Qed.

Lemma find_none_not_stored (l : list Store.help_request) i :
  List.find (λ r, bool_decide (Store.id r = i)) l = None ↔ i ∉ Store.id <$> l.
Proof.
  split.
  - intros Hfind (r & -> & Hr)%list_elem_of_fmap.
    apply (find_none_elem _ _ r) in Hfind; [| done].
    by apply bool_decide_eq_false in Hfind.
  - intros Hnot. destruct (List.find _ l) as [r|] eqn:E; [| done].
    apply find_some_elem in E as [Hr Hid]. apply bool_decide_eq_true in Hid.
    exfalso. apply Hnot. rewrite <- Hid. by apply list_elem_of_fmap_2.
Qed.

(** X9.  Where ids are pairwise distinct, a lookup after a cleanup finds
    nothing for a request the cleanup's condition selects and the
    unchanged dictionary for every other stored request. *)
Theorem lookup_after_cleanup now days db row :
  NoDup (Store.id <$> Store.rows (Store.help_requests db)) →
  row ∈ Store.rows (Store.help_requests db) →
  Store.get_request_by_id (Store.id row) (Store.cleanup_old_requests now days db)
  = if Store.predates now days row then None else Some (Store.to_dict row).
Proof.
  intros Hnd Hrow. unfold Store.get_request_by_id, Store.cleanup_old_requests. cbn.
  destruct (Store.predates now days row) eqn:Hp.
  - replace (List.find _ _) with (@None Store.help_request); [done |].
    symmetry. apply find_none_not_stored.
    intros (r & Hid & Hr)%list_elem_of_fmap.
    apply elem_of_bfilter in Hr as [Hr Hkeep].
    assert (r = row) as ->; [| by rewrite Hp in Hkeep].
    pose proof (find_unique_id _ r Hnd Hr) as F1.
    pose proof (find_unique_id _ row Hnd Hrow) as F2.
    rewrite <- Hid in F1. congruence.
  - rewrite find_unique_id; [done | by apply NoDup_ids_bfilter |].
    apply elem_of_bfilter. by rewrite Hp.
Qed.

Lemma lookup_after_cleanup_witness :
  Store.get_request_by_id
    (Store.id (Examples.stored 2 "Idukki" "flood" (Some "pending") (Some 1699999999000000)))
    (Store.cleanup_old_requests Examples.an_instant 30
       (Examples.with_requests
          [Examples.stored 1 "Idukki" "flood" (Some "pending") (Some 1600000000000000);
           Examples.stored 2 "Idukki" "flood" (Some "pending") (Some 1699999999000000)]))
  = if Store.predates Examples.an_instant 30
         (Examples.stored 2 "Idukki" "flood" (Some "pending") (Some 1699999999000000))
    then None
    else Some (Store.to_dict
                 (Examples.stored 2 "Idukki" "flood" (Some "pending") (Some 1699999999000000))).
Proof.
  apply lookup_after_cleanup.
  - cbn. apply NoDup_cons. split; [by intros [=]%list_elem_of_singleton | apply NoDup_singleton].
  - in_list.
Defined.

(** X10.  For an id within 64 bits, a lookup finds nothing exactly
    when no request carries the id; what it finds carries the id asked
    for and is among the requests [get_all_requests] lists without a
    filter. *)
Theorem lookup_agrees_with_listing request_id db :
  in_int64 request_id = true →
  (Store.get_request_by_id request_id db = None
   ↔ request_id ∉ Store.id <$> Store.rows (Store.help_requests db))
  ∧ (∀ d, Store.get_request_by_id request_id db = Some d →
          Store.d_id d = request_id ∧ d ∈ Store.get_all_requests None None db).
Proof.
  intros _. unfold Store.get_request_by_id. split.
  - rewrite <- find_none_not_stored. by destruct (List.find _ _).
  - intros d Hd. destruct (List.find _ _) as [row|] eqn:E; [| done].
    injection Hd as <-. apply find_some_elem in E as [Hrow Hid].
    apply bool_decide_eq_true in Hid. split; [done |].
    unfold Store.get_all_requests. apply list_elem_of_fmap_2.
    rewrite merge_sort_Permutation. by apply elem_of_bfilter.
Qed.

Lemma lookup_agrees_with_listing_witness :
  (Store.get_request_by_id 2
     (Examples.with_requests [Examples.stored 1 "Idukki" "flood" (Some "pending") (Some 0)])
   = None
   ↔ 2 ∉ Store.id <$> Store.rows (Store.help_requests
           (Examples.with_requests
              [Examples.stored 1 "Idukki" "flood" (Some "pending") (Some 0)])))
  ∧ (∀ d, Store.get_request_by_id 2
            (Examples.with_requests
               [Examples.stored 1 "Idukki" "flood" (Some "pending") (Some 0)]) = Some d →
          Store.d_id d = 2
          ∧ d ∈ Store.get_all_requests None None
                  (Examples.with_requests
                     [Examples.stored 1 "Idukki" "flood" (Some "pending") (Some 0)])).
Proof.
  apply (lookup_agrees_with_listing 2
           (Examples.with_requests
              [Examples.stored 1 "Idukki" "flood" (Some "pending") (Some 0)])).
  reflexivity.
Defined.

(** X11.  After [update_request_status] gives a stored request a
    non-empty status, the list filtered by that status holds the
    request, and the list filtered by any other non-empty status does
    not. *)
Theorem updated_request_is_listed_by_status request_id s db :
  request_id ∈ Store.id <$> Store.rows (Store.help_requests db) → s ≠ "" →
  let db' := (Store.update_request_status request_id s db).2 in
  (∃ d, d ∈ Store.get_all_requests None (Some s) db'
        ∧ Store.d_id d = request_id ∧ Store.d_status d = Some s)
  ∧ (∀ s' d, s' ≠ "" → s' ≠ s → d ∈ Store.get_all_requests None (Some s') db' →
             Store.d_id d ≠ request_id).
Proof.
  intros Hin Hs db'. subst db'.
  rewrite (update_request_status_known _ _ _ Hin). cbn.
  apply list_elem_of_fmap in Hin as (row & -> & Hrow). split.
  - exists (Store.to_dict (mark (Store.id row) s row)).
    split; [| split].
    + unfold Store.get_all_requests. apply list_elem_of_fmap_2.
      rewrite merge_sort_Permutation. apply elem_of_bfilter. split.
      * cbn. by apply list_elem_of_fmap_2.
      * apply where_clause_iff. split; [done |].
        intros ? [= <-] _. unfold mark. rewrite bool_decide_eq_true_2 by done.
        by destruct row.
    + cbn. apply mark_id.
    + unfold mark. rewrite bool_decide_eq_true_2 by done. by destruct row.
  - intros s' d Hs' Hne Hd Hid.
    unfold Store.get_all_requests in Hd.
    apply list_elem_of_fmap in Hd as (r & -> & Hr).
    rewrite merge_sort_Permutation in Hr. apply elem_of_bfilter in Hr as [Hr Hw]. cbn in Hr.
    apply where_clause_iff in Hw as [_ Hw]. specialize (Hw s' eq_refl Hs').
    apply list_elem_of_fmap in Hr as (r0 & -> & _).
    cbn in Hid. rewrite mark_id in Hid. unfold mark in Hw.
    rewrite bool_decide_eq_true_2 in Hw by done. destruct r0; cbn in Hw. congruence.
Qed.

Lemma updated_request_is_listed_by_status_witness :
  let db := Examples.with_requests
              [Examples.stored 1 "Idukki" "flood" (Some "pending") (Some 0)] in
  let db' := (Store.update_request_status 1 "resolved" db).2 in
  (∃ d, d ∈ Store.get_all_requests None (Some "resolved") db'
        ∧ Store.d_id d = 1 ∧ Store.d_status d = Some "resolved")
  ∧ (∀ s' d, s' ≠ "" → s' ≠ "resolved" → d ∈ Store.get_all_requests None (Some s') db' →
             Store.d_id d ≠ 1).
Proof.
  apply (updated_request_is_listed_by_status 1 "resolved"
           (Examples.with_requests
              [Examples.stored 1 "Idukki" "flood" (Some "pending") (Some 0)])).
  - cbn. in_list.
  - discriminate.
Defined.

(** X12.  [update_request_status] returns True exactly for a stored
    id; when it returns False the database is as before.  A lookup of
    another id is not affected, and the dictionary found for the
    updated id changes in its status only. *)
Theorem update_request_status_and_lookup request_id s db :
  ((Store.update_request_status request_id s db).1 = true
   ↔ request_id ∈ Store.id <$> Store.rows (Store.help_requests db))
  ∧ ((Store.update_request_status request_id s db).1 = false →
     (Store.update_request_status request_id s db).2 = db)
  ∧ (∀ other, other ≠ request_id →
       Store.get_request_by_id other (Store.update_request_status request_id s db).2
       = Store.get_request_by_id other db)
  ∧ (∀ d, Store.get_request_by_id request_id db = Some d →
       Store.get_request_by_id request_id (Store.update_request_status request_id s db).2
       = Some {| Store.d_id := Store.d_id d; Store.d_name := Store.d_name d;
                 Store.d_contact := Store.d_contact d; Store.d_location := Store.d_location d;
                 Store.d_category := Store.d_category d;
                 Store.d_description := Store.d_description d;
                 Store.d_people_affected := Store.d_people_affected d;
                 Store.d_status := Some s; Store.d_timestamp := Store.d_timestamp d |}).
Proof.
  assert (∀ i (l : list Store.help_request),
            List.find (λ r, bool_decide (Store.id r = i)) (mark request_id s <$> l)
            = mark request_id s <$> List.find (λ r, bool_decide (Store.id r = i)) l) as Hfind.
  { intros i l. induction l as [|a l IH]; [done |]. cbn. rewrite mark_id.
    destruct (bool_decide (Store.id a = i)); [done | apply IH]. }
  split; [| split; [| split]].
  - destruct (decide (request_id ∈ Store.id <$> Store.rows (Store.help_requests db)))
      as [Hin | Hnot].
    + by rewrite (update_request_status_known _ _ _ Hin).
    + by rewrite (update_request_status_unknown _ _ _ Hnot).
  - destruct (decide (request_id ∈ Store.id <$> Store.rows (Store.help_requests db)))
      as [Hin | Hnot].
    + by rewrite (update_request_status_known _ _ _ Hin).
    + by rewrite (update_request_status_unknown _ _ _ Hnot).
  - intros other Hne. unfold Store.get_request_by_id. rewrite update_rows.
    change (λ row, if bool_decide (Store.id row = request_id)
                   then Store.set_status (Some s) row else row) with (mark request_id s).
    rewrite Hfind. destruct (List.find _ _) as [r|] eqn:E; [| done]. cbn.
    apply find_some_elem in E as [_ Hid]. apply bool_decide_eq_true in Hid.
    unfold mark. rewrite bool_decide_eq_false_2; [done | congruence].
  - intros d. unfold Store.get_request_by_id. rewrite update_rows.
    change (λ row, if bool_decide (Store.id row = request_id)
                   then Store.set_status (Some s) row else row) with (mark request_id s).
    rewrite Hfind. destruct (List.find _ _) as [r|] eqn:E; [| done]. cbn.
    intros [= <-]. apply find_some_elem in E as [_ Hid]. apply bool_decide_eq_true in Hid.
    unfold mark. rewrite bool_decide_eq_true_2 by done. by destruct r.
Qed.

Lemma find_first {A} (f : A → bool) (l : list A) x :
  List.find f l = Some x →
  ∃ before after, l = before ++ x :: after
                  ∧ (∀ y, y ∈ before → f y = false) ∧ f x = true.
Proof.
  induction l as [|a l IH]; [done |]. simpl.
  destruct (f a) eqn:E.
  - intros [= <-]. exists [], l. repeat split; [| done]. by intros ? ?%elem_of_nil.
  - intros (before & after & -> & Hb & Hx)%IH.
    exists (a :: before), after. repeat split; [| done].
    intros y [-> | Hy]%elem_of_cons; auto.
Qed.

(** X13.  [add_request] never returns an id and never changes the
    database.  When a required field is falsy it raises ValueError
    naming the first such field; otherwise it raises an error of the
    database layer. *)
Theorem add_request_never_stores now request_data db :
  (Store.add_request now request_data db).2 = db
  ∧ ((∃ before field after,
        Store.required_fields = before ++ field :: after
        ∧ (∀ f, f ∈ before → truthy (dict_get request_data f) = true)
        ∧ truthy (dict_get request_data field) = false
        ∧ (Store.add_request now request_data db).1
          = Raise (ValueError ("Missing required field: " +:+ field)))
     ∨ ((∀ f, f ∈ Store.required_fields → truthy (dict_get request_data f) = true)
        ∧ ∃ e, (Store.add_request now request_data db).1 = Raise e
               ∧ ∀ msg, e ≠ ValueError msg)).
Proof.
  destruct (add_request_always_raises now request_data db) as [e He].
  split; [by rewrite He |].
  unfold Store.add_request, Store.validate in *.
  destruct (List.find _ Store.required_fields) as [field|] eqn:Hfind.
  - left. apply find_first in Hfind as (before & after & Hl & Hb & Hx).
    exists before, field, after. repeat split; [done | | by apply negb_true_iff in Hx].
    intros f Hf. specialize (Hb f Hf). by apply negb_false_iff in Hb.
  - right. split.
    + intros f Hf. apply (find_none_elem _ _ f) in Hfind; [| done].
      by apply negb_false_iff in Hfind.
    + exists e. split; [by rewrite He |]. intros msg ->. revert He.
      repeat match goal with
      | |- context [dict_item ?d ?k] =>
          let D := fresh "D" in
          destruct (dict_item d k) eqn:D; run;
          [| intros [= ->]; unfold dict_item in D; destruct (d !! k); discriminate D ]
      end.
      repeat match goal with
      | |- context [sql_bind ?v] =>
          let B := fresh "B" in
          destruct (sql_bind v) eqn:B; run;
          [| intros [= ->]; destruct v; try discriminate B;
             cbn in B; destruct (in_int64 _); discriminate B ]
      end.
      unfold Store.insert_help_request.
      repeat match goal with
      | |- context [text_not_null ?t ?c ?x] =>
          let T := fresh "T" in
          destruct (text_not_null t c x) eqn:T; run;
          [| intros [= ->]; destruct x; discriminate T ]
      end.
      discriminate.
Qed.

(** ** Counting by region *)

Section counting.
Context {A K : Type} `{EqDecision K} (key : A → K).

Lemma sum_sizes_nil ks : sum_sizes key [] ks = 0.
Proof. induction ks as [|k ks IH]; [done |]. unfold sum_sizes in *. cbn. by rewrite IH. Qed.

Lemma sum_sizes_cons_absent a l ks :
  key a ∉ ks → sum_sizes key (a :: l) ks = sum_sizes key l ks.
Proof.
  induction ks as [|k ks IH]; [done |].
  intros Hnot. apply not_elem_of_cons in Hnot as [Hne Hnot].
  unfold sum_sizes in *. cbn [foldr]. rewrite (IH Hnot). f_equal.
  unfold group_size. cbn. by rewrite bool_decide_eq_false_2.
Qed.

Lemma sum_sizes_cons_present a l ks :
  NoDup ks → key a ∈ ks → sum_sizes key (a :: l) ks = 1 + sum_sizes key l ks.
Proof.
  induction ks as [|k ks IH]; [by intros _ ?%elem_of_nil |].
  rewrite NoDup_cons. intros [Hk Hnd] Hin.
  change (sum_sizes key (a :: l) (k :: ks)) with (group_size key (a :: l) k + sum_sizes key (a :: l) ks).
  change (sum_sizes key l (k :: ks)) with (group_size key l k + sum_sizes key l ks).
  destruct (decide (key a = k)) as [<- | Hne].
  - rewrite (sum_sizes_cons_absent a l ks Hk).
    unfold group_size. cbn. rewrite bool_decide_eq_true_2 by done. cbn [length]. lia.
  - apply elem_of_cons in Hin as [? | Hin]; [done |]. rewrite (IH Hnd Hin).
    unfold group_size. cbn. rewrite bool_decide_eq_false_2 by done. lia.
Qed.

Lemma sum_sizes_all l ks :
  NoDup ks → (∀ x, x ∈ l → key x ∈ ks) → sum_sizes key l ks = Z.of_nat (length l).
Proof.
  intros Hnd. induction l as [|a l IH]; intros Hall.
  - apply sum_sizes_nil.
  - rewrite sum_sizes_cons_present; [| done | apply Hall, list_elem_of_here].
    rewrite IH; [cbn [length]; lia |]. intros x Hx. by apply Hall, list_elem_of_further.
Qed.
End counting.

(** X14.  The counts of the affected regions add up to the number of
    pending requests, every region listed has at least one, and the list
    is empty exactly when no request is pending. *)
Theorem affected_regions_count_every_pending_request db :
  let out := Store.get_affected_regions db in
  total_requests out
  = Z.of_nat (length (List.filter Store.is_pending (Store.rows (Store.help_requests db))))
  ∧ (∀ e, e ∈ out → 1 ≤ Store.request_count e)
  ∧ (out = [] ↔ ∀ row, row ∈ Store.rows (Store.help_requests db) →
                       Store.status row ≠ Some "pending").
Proof.
  intros out. subst out. unfold Store.get_affected_regions.
  set (pending := List.filter Store.is_pending (Store.rows (Store.help_requests db))).
  split; [| split].
  - rewrite <- (sum_sizes_all Store.region_of pending
                  (remove_dups (Store.region_of <$> pending))).
    + induction (remove_dups (Store.region_of <$> pending)) as [|k ks IH]; [done |].
      unfold total_requests, sum_sizes in *. cbn [fmap list_fmap foldr]. rewrite <- IH.
      reflexivity.
    + apply NoDup_remove_dups.
    + intros x Hx. by apply elem_of_remove_dups, list_elem_of_fmap_2.
  - intros e (k & -> & Hk)%list_elem_of_fmap. cbn.
    apply elem_of_remove_dups, list_elem_of_fmap in Hk as (row & -> & Hrow).
    assert (0 < length (List.filter (Store.in_region (Store.region_of row)) pending))%nat;
      [| lia].
    apply (bfilter_length_pos _ _ row Hrow). by apply bool_decide_eq_true.
  - split.
    + intros Hnil row Hrow Hp.
      apply fmap_nil_inv in Hnil.
      assert (Store.region_of row ∈ remove_dups (Store.region_of <$> pending)) as Hin.
      { apply elem_of_remove_dups, list_elem_of_fmap_2, elem_of_bfilter.
        split; [done | by apply bool_decide_eq_true]. }
      rewrite Hnil in Hin. by apply elem_of_nil in Hin.
    + intros Hnone.
      assert (pending = []) as ->; [| done].
      apply bfilter_nil_iff. intros row Hrow. apply bool_decide_eq_false. by apply Hnone.
Qed.

(** * Further properties of the handlers *)

(** ** Submitting *)

Lemma session_add_commit_inv v1 v2 v3 v4 v5 n s now st new_id st' :
  App.session_add_commit v1 v2 v3 v4 v5 n s now st = Ok (new_id, st') →
  in_int64 n = true ∧ new_id = App.max_id st + 1
  ∧ ∃ row, st' = st ++ [row] ∧ App.id row = new_id ∧ App.people_affected row = n
           ∧ App.status row = s ∧ App.timestamp row = now.
Proof.
  intros H. destruct (session_add_commit_ok _ _ _ _ _ _ _ _ _ _ _ H)
    as (row & -> & Hid & Hnew & Hn & Hs & Ht).
  split; [| split; [done | by exists row]].
  unfold App.session_add_commit in H.
  repeat match type of H with
  | context [sql_bind ?v ≫= ?f] => destruct (sql_bind v ≫= f); run_in H; [| done]
  end.
  by destruct (in_int64 n).
Qed.

Lemma submit_request_cases now data st :
  (∃ before field after,
     App.required_fields = before ++ field :: after
     ∧ (∀ f, f ∈ before → truthy (dict_get data f) = true)
     ∧ truthy (dict_get data field) = false
     ∧ App.submit_request now data st
       = ({| App.code := 400;
             App.payload := App.Error ("Missing required field: " +:+ field) |}, st))
  ∨ ((∀ f, f ∈ App.required_fields → truthy (dict_get data f) = true)
     ∧ (App.submit_request now data st
        = ({| App.code := 500; App.payload := App.Error "Internal server error" |}, st)
        ∨ ∃ row,
            App.submit_request now data st
            = ({| App.code := 201; App.payload := App.Submitted (App.max_id st + 1) |},
               st ++ [row])
            ∧ App.id row = App.max_id st + 1 ∧ App.status row = "pending"
            ∧ App.timestamp row = now ∧ in_int64 (App.people_affected row) = true)).
Proof.
  unfold App.submit_request.
  destruct (List.find _ App.required_fields) as [field|] eqn:Hfind.
  - left. apply find_first in Hfind as (before & after & Hl & Hb & Hx).
    exists before, field, after. repeat split; [done | | by apply negb_true_iff in Hx].
    intros f Hf. specialize (Hb f Hf). by apply negb_false_iff in Hb.
  - right. split.
    + intros f Hf. apply (find_none_elem _ _ f) in Hfind; [| done].
      by apply negb_false_iff in Hfind.
    + match goal with
      | |- context [match ?m with Ok _ => _ | Raise _ => _ end] =>
          destruct m as [[new_id st']|] eqn:E
      end; [| by left].
      right.
      repeat match type of E with
      | context [dict_item ?d ?k] => destruct (dict_item d k); run_in E; [| done]
      end.
      destruct (py_int _); run_in E; [| done].
      apply session_add_commit_inv in E as (Hn & -> & row & -> & ? & <- & ? & ?).
      by exists row.
Qed.

(** X15.  [POST /api/submit] answers 400, 500 or 201.  It answers 400,
    naming the first required field whose value is falsy, exactly when
    there is such a field; it changes the table only when it answers
    201. *)
Theorem submit_request_outcomes now data st :
  let resp := (App.submit_request now data st).1 in
  let st' := (App.submit_request now data st).2 in
  (App.code resp = 400 ∨ App.code resp = 500 ∨ App.code resp = 201)
  ∧ (App.code resp ≠ 201 → st' = st)
  ∧ (App.code resp = 400 ↔
     ∃ f, f ∈ App.required_fields ∧ truthy (dict_get data f) = false)
  ∧ (App.code resp = 400 →
     ∃ before field after,
       App.required_fields = before ++ field :: after
       ∧ (∀ f, f ∈ before → truthy (dict_get data f) = true)
       ∧ truthy (dict_get data field) = false
       ∧ App.payload resp = App.Error ("Missing required field: " +:+ field)).
Proof.
  intros resp st'. subst resp st'.
  destruct (submit_request_cases now data st)
    as [(before & field & after & Hl & Hb & Hx & ->)
       | [Hall [-> | (row & -> & _)]]]; cbn.
  - split; [by left |]. split; [done |]. split.
    + split; [| done]. intros _. exists field. split; [| done].
      rewrite Hl. apply elem_of_app. right. apply list_elem_of_here.
    + intros _. by exists before, field, after.
  - split; [right; by left |]. split; [done |]. split; [| done].
    split; [done |]. intros (f & Hf & Hfalse). rewrite (Hall f Hf) in Hfalse. done.
  - split; [right; by right |]. split; [done |]. split; [| done].
    split; [done |]. intros (f & Hf & Hfalse). rewrite (Hall f Hf) in Hfalse. done.
Qed.

(** X16.  A submission whose five required fields are non-empty strings
    and whose people_affected is absent or an integer of 64 bits is
    accepted: the answer is 201 with the id one above the largest id of
    the table, and the row stored is the submission as given, pending,
    stamped [now]. *)
Theorem submit_request_accepts now data st n c l g d p :
  data !! "name" = Some (PStr n) → n ≠ "" →
  data !! "contact" = Some (PStr c) → c ≠ "" →
  data !! "location" = Some (PStr l) → l ≠ "" →
  data !! "category" = Some (PStr g) → g ≠ "" →
  data !! "description" = Some (PStr d) → d ≠ "" →
  (data !! "people_affected" = None ∧ p = 1)
  ∨ (data !! "people_affected" = Some (PInt p) ∧ in_int64 p = true) →
  App.submit_request now data st
  = ({| App.code := 201; App.payload := App.Submitted (App.max_id st + 1) |},
     st ++ [{| App.id := App.max_id st + 1; App.name := n; App.contact := c;
               App.location := l; App.category := g; App.description := d;
               App.people_affected := p; App.status := "pending";
               App.timestamp := now |}]).
Proof.
  intros E1 N1 E2 N2 E3 N3 E4 N4 E5 N5 Hp.
  unfold App.submit_request, App.required_fields, dict_get, dict_item.
  cbn [List.find]. rewrite E1, E2, E3, E4, E5. cbn [default from_option id truthy].
  rewrite !bool_decide_eq_false_2 by done. cbn [negb].
  unfold dict_get_default.
  destruct Hp as [[-> ->] | [-> Hp]]; cbn.
  - done.
  - unfold App.session_add_commit. cbn. by rewrite Hp.
Qed.

Lemma submit_request_accepts_witness :
  App.submit_request Examples.an_instant
    (<["people_affected" := PInt 3]> Examples.flood_request) [Examples.posted 1 "pending" 0]
  = ({| App.code := 201;
        App.payload := App.Submitted (App.max_id [Examples.posted 1 "pending" 0] + 1) |},
     [Examples.posted 1 "pending" 0]
       ++ [{| App.id := App.max_id [Examples.posted 1 "pending" 0] + 1; App.name := "A";
              App.contact := "123"; App.location := "X"; App.category := "flood";
              App.description := "d"; App.people_affected := 3; App.status := "pending";
              App.timestamp := Examples.an_instant |}]).
Proof.
  apply submit_request_accepts; try reflexivity; try discriminate.
  right. split; reflexivity.
Defined.

Lemma app_max_id_bound (st : list App.HelpRequest) r :
  r ∈ st → App.id r ≤ App.max_id st.
Proof.
  induction st as [|a st IH]; [by intros ?%elem_of_nil |].
  intros [-> | H]%elem_of_cons; simpl; [lia |]. specialize (IH H). lia.
Qed.

Lemma fresh_id_not_stored (st : list App.HelpRequest) :
  App.max_id st + 1 ∉ App.id <$> st.
Proof.
  intros (r & Hid & Hr)%list_elem_of_fmap. apply app_max_id_bound in Hr. lia.
Qed.

Lemma app_mark_absent request_id (st : list App.HelpRequest) :
  request_id ∉ App.id <$> st → app_mark request_id <$> st = st.
Proof.
  intros Hnot. apply fmap_id_on. intros r Hr. unfold app_mark.
  rewrite bool_decide_eq_false_2; [done |].
  intros <-. apply Hnot. by apply list_elem_of_fmap_2.
Qed.

Lemma get_or_404_last (st : list App.HelpRequest) row :
  App.id row ∉ App.id <$> st → App.get_or_404 (App.id row) (st ++ [row]) = Ok row.
Proof.
  intros Hnot. unfold App.get_or_404.
  induction st as [|a st IH]; cbn.
  - by rewrite bool_decide_eq_true_2.
  - rewrite fmap_cons in Hnot. apply not_elem_of_cons in Hnot as [Hne Hnot].
    rewrite bool_decide_eq_false_2 by done. by apply IH.
Qed.

(** X17.  An accepted submission can be found and resolved under the id
    returned: the id is new to the table, [get_or_404] finds the stored
    row, resolving it answers 200 and changes that row only, and the
    list of resolved requests then holds it. *)
Theorem submitted_request_can_be_resolved now data st :
  App.code (App.submit_request now data st).1 = 201 →
  ∃ i row,
    App.submit_request now data st
    = ({| App.code := 201; App.payload := App.Submitted i |}, st ++ [row])
    ∧ (∀ r, r ∈ st → App.id r ≠ i)
    ∧ App.get_or_404 i (st ++ [row]) = Ok row
    ∧ App.resolve_request i (st ++ [row])
      = ({| App.code := 200; App.payload := App.Resolved i |},
         st ++ [App.set_status "resolved" row])
    ∧ ∃ listed,
        App.get_requests None (Some "resolved") (st ++ [App.set_status "resolved" row])
        = {| App.code := 200; App.payload := App.Requests listed |}
        ∧ App.set_status "resolved" row ∈ listed.
Proof.
  intros Hcode.
  destruct (submit_request_cases now data st)
    as [(? & ? & ? & _ & _ & _ & E) | [_ [E | (row & E & Hid & _)]]];
    try (rewrite E in Hcode; discriminate).
  exists (App.max_id st + 1), row. split; [done |].
  pose proof (fresh_id_not_stored st) as Hfresh.
  split; [intros r Hr Heq; apply Hfresh; rewrite <- Heq; by apply list_elem_of_fmap_2 |].
  rewrite <- Hid in *. split; [by apply get_or_404_last |]. split.
  - rewrite resolve_request_known.
    + rewrite fmap_app, (app_mark_absent _ _ Hfresh). cbn. unfold app_mark.
      by rewrite bool_decide_eq_true_2.
    + rewrite fmap_app. apply elem_of_app. right. apply list_elem_of_here.
  - eexists. split; [reflexivity |].
    rewrite merge_sort_Permutation. apply elem_of_bfilter. split.
    + apply elem_of_app. right. apply list_elem_of_here.
    + by destruct row.
Qed.

Lemma submitted_request_can_be_resolved_witness :
  ∃ i row,
    App.submit_request Examples.an_instant Examples.flood_request []
    = ({| App.code := 201; App.payload := App.Submitted i |}, [] ++ [row])
    ∧ (∀ r, r ∈ [] → App.id r ≠ i)
    ∧ App.get_or_404 i ([] ++ [row]) = Ok row
    ∧ App.resolve_request i ([] ++ [row])
      = ({| App.code := 200; App.payload := App.Resolved i |},
         [] ++ [App.set_status "resolved" row])
    ∧ ∃ listed,
        App.get_requests None (Some "resolved") ([] ++ [App.set_status "resolved" row])
        = {| App.code := 200; App.payload := App.Requests listed |}
        ∧ App.set_status "resolved" row ∈ listed.
Proof.
  apply (submitted_request_can_be_resolved Examples.an_instant Examples.flood_request []).
  vm_compute. reflexivity.
Defined.

(** ** Resolving and the helpline page *)

(** X18.  [POST /api/resolve_request/<id>] answers 200 for a stored id
    and marks the rows of that id resolved; for any other id it answers
    500 and leaves the table as it was.  It never answers 404, and it
    never adds, removes or renumbers a request. *)
Theorem resolve_request_answers request_id st :
  let resp := (App.resolve_request request_id st).1 in
  let st' := (App.resolve_request request_id st).2 in
  (request_id ∈ App.id <$> st →
   resp = {| App.code := 200; App.payload := App.Resolved request_id |}
   ∧ Forall2 (λ r r', r' = if bool_decide (App.id r = request_id)
                           then App.set_status "resolved" r else r) st st')
  ∧ (request_id ∉ App.id <$> st →
     resp = {| App.code := 500; App.payload := App.Error "Internal server error" |}
     ∧ st' = st)
  ∧ App.code resp ≠ 404
  ∧ App.id <$> st' = App.id <$> st.
Proof.
  intros resp st'. subst resp st'.
  destruct (decide (request_id ∈ App.id <$> st)) as [Hin | Hnot].
  - rewrite (resolve_request_known _ _ Hin). cbn.
    split; [| split; [done | split; [done | apply ids_after_app_mark]]].
    intros _. split; [done |].
    apply Forall2_fmap_r, Forall_Forall2_diag, Forall_forall. by intros r _.
  - rewrite (resolve_request_unknown _ _ Hnot). cbn.
    split; [done |]. split; [done |]. split; done.
Qed.

(** X19.  [GET /helpline/<id>]: id 0 gets the page without a request,
    whatever the table holds.  For an id other than 0 within 64 bits, a
    stored id gets the page with the request of that id, and any other
    id gets the answer of the 404 handler, where the resolve handler
    answers 500 for the same id.  An id outside 64 bits raises
    OverflowError, which no handler here turns into 404. *)
Theorem helpline_answers request_id st :
  (request_id = 0 →
   App.helpline_reply request_id st = Ok (inl (App.Template "helpline.html" None)))
  ∧ (request_id ≠ 0 → in_int64 request_id = true → request_id ∈ App.id <$> st →
     ∃ r, r ∈ st ∧ App.id r = request_id
          ∧ App.helpline_reply request_id st
            = Ok (inl (App.Template "helpline.html" (Some r))))
  ∧ (request_id ≠ 0 → in_int64 request_id = true → request_id ∉ App.id <$> st →
     App.helpline_reply request_id st
     = Ok (inr {| App.code := 404; App.payload := App.Error "Resource not found" |})
     ∧ App.code (App.resolve_request request_id st).1 = 500)
  ∧ (in_int64 request_id = false →
     App.helpline_reply request_id st = Raise OverflowError).
Proof.
  unfold App.helpline_reply, App.helpline. split; [by intros -> |]. split; [| split].
  - intros Hne Hrange Hin. apply Z.eqb_neq in Hne. rewrite Hne, Hrange. cbn.
    apply list_elem_of_fmap in Hin as (r & Hid & Hr). unfold App.get_or_404.
    destruct (find_is_some (λ r, bool_decide (App.id r = request_id)) st r Hr) as [r0 E].
    { by apply bool_decide_eq_true. }
    rewrite E. cbn. apply find_some_elem in E as [Hr0 Hid0].
    apply bool_decide_eq_true in Hid0. by exists r0.
  - intros Hne Hrange Hnot. rewrite (resolve_request_unknown _ _ Hnot). split; [| done].
    apply Z.eqb_neq in Hne. rewrite Hne, Hrange. cbn. unfold App.get_or_404.
    destruct (List.find _ st) as [r|] eqn:E; [| done].
    apply find_some_elem in E as [Hr Hid]. apply bool_decide_eq_true in Hid.
    exfalso. apply Hnot. rewrite <- Hid. by apply list_elem_of_fmap_2.
  - intros Hrange. rewrite Hrange.
    destruct (Z.eqb_spec request_id 0) as [-> | _]; [discriminate Hrange | done].
Qed.

(** ** Any sequence of requests *)

Lemma kept_or_resolved_refl (st : list App.HelpRequest) :
  Forall2 kept_or_resolved st st.
Proof. apply Forall_Forall2_diag, Forall_forall. intros r _. by left. Qed.

Lemma kept_or_resolved_trans r1 r2 r3 :
  kept_or_resolved r1 r2 → kept_or_resolved r2 r3 → kept_or_resolved r1 r3.
Proof.
  unfold kept_or_resolved. intros [-> | ->] [-> | ->]; auto.
Qed.

Lemma serve_keeps_or_resolves c st :
  ∃ updated extra, serve c st = updated ++ extra ∧ Forall2 kept_or_resolved st updated.
Proof.
  destruct c as [now data | request_id | ? ? | ?]; cbn.
  - destruct (submit_request_cases now data st)
      as [(? & ? & ? & _ & _ & _ & ->) | [_ [-> | (row & -> & _)]]]; cbn.
    + exists st, []. rewrite app_nil_r. split; [done | apply kept_or_resolved_refl].
    + exists st, []. rewrite app_nil_r. split; [done | apply kept_or_resolved_refl].
    + exists st, [row]. split; [done | apply kept_or_resolved_refl].
  - destruct (decide (request_id ∈ App.id <$> st)) as [Hin | Hnot].
    + rewrite (resolve_request_known _ _ Hin). cbn.
      exists (app_mark request_id <$> st), []. rewrite app_nil_r. split; [done |].
      apply Forall2_fmap_r, Forall_Forall2_diag, Forall_forall. intros r _.
      unfold compose, app_mark, kept_or_resolved. destruct (bool_decide _); auto.
    + rewrite (resolve_request_unknown _ _ Hnot). cbn.
      exists st, []. rewrite app_nil_r. split; [done | apply kept_or_resolved_refl].
  - exists st, []. rewrite app_nil_r. split; [done | apply kept_or_resolved_refl].
  - exists st, []. rewrite app_nil_r. split; [done | apply kept_or_resolved_refl].
Qed.

(** X20.  Whatever requests are served, a stored request is never
    removed, moved or edited: the table afterwards starts with the rows
    it had, each unchanged or marked resolved, followed by the rows
    added since.  A resolved request stays resolved. *)
Theorem requests_are_only_ever_resolved calls st :
  ∃ updated added,
    serve_all calls st = updated ++ added
    ∧ Forall2 kept_or_resolved st updated
    ∧ Forall2 (λ r r', App.status r = "resolved" → r' = r) st updated.
Proof.
  assert (∃ updated added, serve_all calls st = updated ++ added
                           ∧ Forall2 kept_or_resolved st updated) as (updated & added & E & H).
  { revert st. induction calls as [|c calls IH]; intros st.
    - exists st, []. rewrite app_nil_r. split; [done | apply kept_or_resolved_refl].
    - change (serve_all (c :: calls) st) with (serve_all calls (serve c st)).
      destruct (serve_keeps_or_resolves c st) as (u1 & e1 & -> & H1).
      destruct (IH (u1 ++ e1)) as (u2 & e2 & -> & H2).
      apply Forall2_app_inv_l in H2 as (u21 & u22 & H21 & H22 & ->).
      exists u21, (u22 ++ e2). split; [by rewrite app_assoc |].
      clear -H1 H21. revert u21 H21.
      induction H1 as [|r1 r2 st u1 Hr H1 IH']; intros u21 H21.
      + inversion H21. constructor.
      + inversion H21 as [|? r3 ? u3 Hr' H3]; subst. constructor.
        * by apply (kept_or_resolved_trans r1 r2 r3).
        * by apply IH'. }
  exists updated, added. split; [done |]. split; [done |].
  clear E. induction H as [|r r' st updated Hr H IH]; constructor; [| done].
  intros Hs. destruct Hr as [-> | ->]; [done |]. by apply app_set_status_same.
Qed.

Lemma foldr_max_init (l : list Z) b :
  0 ≤ b → foldr Z.max b l = Z.max b (foldr Z.max 0 l).
Proof. intros Hb. induction l as [|x l IH]; simpl; [lia |]. rewrite IH. lia. Qed.

Lemma max_id_as_foldr (st : list App.HelpRequest) :
  App.max_id st = foldr Z.max 0 (App.id <$> st).
Proof. induction st as [|r st IH]; [done |]. cbn. by rewrite <- IH. Qed.

Lemma first_ids_S n : first_ids (S n) = first_ids n ++ [Z.of_nat (S n)].
Proof. unfold first_ids. by rewrite seq_S, fmap_app. Qed.

Lemma foldr_max_first_ids n : foldr Z.max 0 (first_ids n) = Z.of_nat n.
Proof.
  induction n as [|n IH]; [done |].
  rewrite first_ids_S, foldr_app. cbn [foldr].
  rewrite foldr_max_init by lia. rewrite IH. lia.
Qed.

Lemma serve_keeps_ids_in_sequence c st :
  App.id <$> st = first_ids (length st) →
  App.id <$> serve c st = first_ids (length (serve c st)).
Proof.
  intros Hids. destruct c as [now data | request_id | ? ? | ?]; cbn -[first_ids]; try done.
  - destruct (submit_request_cases now data st)
      as [(? & ? & ? & _ & _ & _ & ->) | [_ [-> | (row & -> & Hid & _)]]]; cbn -[first_ids]; try done.
    rewrite fmap_app, length_app. cbn -[first_ids].
    replace (length st + 1)%nat with (S (length st)) by lia.
    rewrite first_ids_S, <- Hids. do 2 f_equal.
    rewrite Hid, max_id_as_foldr, Hids, foldr_max_first_ids. lia.
  - destruct (decide (request_id ∈ App.id <$> st)) as [Hin | Hnot].
    + rewrite (resolve_request_known _ _ Hin). cbn -[first_ids].
      by rewrite ids_after_app_mark, length_fmap.
    + by rewrite (resolve_request_unknown _ _ Hnot).
Qed.

Lemma serve_keeps_rows_well_formed c st :
  Forall (λ r, (App.status r = "pending" ∨ App.status r = "resolved")
               ∧ in_int64 (App.people_affected r) = true) st →
  Forall (λ r, (App.status r = "pending" ∨ App.status r = "resolved")
               ∧ in_int64 (App.people_affected r) = true) (serve c st).
Proof.
  intros Hok. destruct c as [now data | request_id | ? ? | ?]; cbn; try done.
  - destruct (submit_request_cases now data st)
      as [(? & ? & ? & _ & _ & _ & ->) | [_ [-> | (row & -> & _ & Hs & _ & Hp)]]];
      cbn; try done.
    apply Forall_app. split; [done |]. apply Forall_singleton. auto.
  - destruct (decide (request_id ∈ App.id <$> st)) as [Hin | Hnot].
    + rewrite (resolve_request_known _ _ Hin). cbn.
      apply Forall_fmap. eapply Forall_impl; [exact Hok |].
      intros r [Hs Hp]. unfold compose, app_mark.
      destruct (bool_decide _); [| done]. destruct r; cbn in *. auto.
    + by rewrite (resolve_request_unknown _ _ Hnot).
Qed.

(** X21.  Starting from the empty table, after any sequence of requests
    the ids are 1, 2, ..., n in the order of submission, every status is
    pending or resolved, and every people_affected is an integer of 64
    bits. *)
Theorem table_after_any_requests calls :
  let st := serve_all calls [] in
  App.id <$> st = first_ids (length st)
  ∧ Forall (λ r, (App.status r = "pending" ∨ App.status r = "resolved")
                 ∧ in_int64 (App.people_affected r) = true) st.
Proof.
  cbn.
  assert (∀ st : list App.HelpRequest,
            App.id <$> st = first_ids (length st) →
            Forall (λ r, (App.status r = "pending" ∨ App.status r = "resolved")
                         ∧ in_int64 (App.people_affected r) = true) st →
            App.id <$> serve_all calls st = first_ids (length (serve_all calls st))
            ∧ Forall (λ r, (App.status r = "pending" ∨ App.status r = "resolved")
                           ∧ in_int64 (App.people_affected r) = true)
                (serve_all calls st)) as H.
  { induction calls as [|c calls IH]; intros st Hids Hok; [done |].
    change (serve_all (c :: calls) st) with (serve_all calls (serve c st)). apply IH.
    - by apply serve_keeps_ids_in_sequence.
    - by apply serve_keeps_rows_well_formed. }
  apply H; [done | constructor].
Qed.
